(** * FeatureProbe server SDK for Go: event recorder and client facade

    A shallow embedding of [event.go] and of the client facade
    ([featureprobe.go]), and the properties of the evaluation accessors,
    the aggregation of access events, the telemetry document and the
    recorder's life cycle that were checked against them. *)

From Stdlib Require Import ZArith QArith.
From Stdlib Require Import Floats.SpecFloat.
From stdpp Require Import gmap strings list fin_maps pretty.

Local Open Scope Z_scope.
Local Set Warnings "-register-all".

(** * Go values *)

(** [float64] is IEEE 754 binary64: precision 53, exponents below 1024. *)
Definition float64 : Type := spec_float.

(** The conversion [float64(i)] of an integer, rounding to nearest even. *)
Definition float64_of_int (i : Z) : float64 := binary_normalize 53 1024 i 0 false.

Definition float64_finite (f : float64) : bool :=
  match f with
  | S754_zero _ | S754_finite _ _ _ => true
  | S754_infinity _ | S754_nan => false
  end.

(** A value of type [interface{}], by its dynamic type.  Decoding JSON
    yields [VNil], [VBool], [VFloat], [VStr], [VSlice] and [VMap]; a Go [int]
    only comes from values built in the process (NewFeatureProbeForTest). *)
Inductive value : Type :=
| VNil
| VBool (b : bool)
| VInt (i : Z)
| VFloat (f : float64)
| VStr (s : string)
| VSlice (l : list value)
| VMap (m : list (string * value)).

(** Type assertions [v.(bool)], [v.(string)], [v.(int)], [v.(float64)] in
    their two-result form: [None] is [ok == false]. *)
Definition assertBool (v : value) : option bool :=
  match v with VBool b => Some b | _ => None end.
Definition assertString (v : value) : option string :=
  match v with VStr s => Some s | _ => None end.
Definition assertInt (v : value) : option Z :=
  match v with VInt i => Some i | _ => None end.
Definition assertFloat64 (v : value) : option float64 :=
  match v with VFloat f => Some f | _ => None end.

(** A non-nil pointer: the address it holds and the value stored there.
    [*int] and [*uint64] are [option (ptr Z)], [None] being [nil].  Go
    compares pointers by address, also inside map keys. *)
Record ptr (A : Type) : Type := Ptr { addr : positive; deref : A }.
Arguments Ptr {A} _ _.
Arguments addr {A} _.
Arguments deref {A} _.

Definition ptr_eqb {A} (p q : option (ptr A)) : bool :=
  match p, q with
  | None, None => true
  | Some a, Some b => Pos.eqb (addr a) (addr b)
  | _, _ => false
  end.

(** * Strings *)

(** [strings.HasSuffix] *)
Definition HasSuffix (s suffix : string) : bool :=
  let n := String.length s in
  let k := String.length suffix in
  (k <=? n)%nat && String.eqb (String.substring (n - k) k s) suffix.

(** [strings.Contains] *)
Fixpoint Contains (s substr : string) : bool :=
  String.prefix substr s ||
  match s with
  | EmptyString => false
  | String _ rest => Contains rest substr
  end.

(** * event.go: data *)

Module AccessEvent.
Record t : Type := mk {
  Time : Z;
  Key : string;
  Value : value;
  Index : option (ptr Z);
  Version : option (ptr Z);
  Reason : string
}.
End AccessEvent.

Module ToggleCounter.
Record t : Type := mk {
  Value : value;
  Version : option (ptr Z);
  Index : option (ptr Z);
  Count : Z
}.
End ToggleCounter.

Module Access.
Record t : Type := mk {
  StartTime : Z;
  EndTime : Z;
  Counters : gmap string (list ToggleCounter.t)
}.
End Access.

Module PackedData.
Record t : Type := mk {
  Events : list AccessEvent.t;
  Access : Access.t
}.
End PackedData.

Module Variation.
Record t : Type := mk {
  Key : string;
  Index : option (ptr Z);
  Version : option (ptr Z)
}.

(** [==] on the struct, as the map [map[Variation]CountValue] uses it:
    the key strings are compared by content, the two pointers by address. *)
Definition eqb (a b : t) : bool :=
  String.eqb (Key a) (Key b) && ptr_eqb (Index a) (Index b)
  && ptr_eqb (Version a) (Version b).
End Variation.

Module CountValue.
Record t : Type := mk {
  Count : Z;
  Value : value
}.
End CountValue.

(** [map[Variation]CountValue], in the order the keys were first stored. *)
Definition counterMap : Type := list (Variation.t * CountValue.t).

Fixpoint counterMap_get (m : counterMap) (k : Variation.t) : option CountValue.t :=
  match m with
  | [] => None
  | (k', c) :: rest => if Variation.eqb k' k then Some c else counterMap_get rest k
  end.

(** [m[k] = c] for a key that [m] does not hold. *)
Definition counterMap_add (m : counterMap) (k : Variation.t) (c : CountValue.t) : counterMap :=
  m ++ [(k, c)].

(** * event.go: aggregation *)

(** The variable [event] of [for _, event := range events] is one variable
    for the whole loop before Go 1.22 and a new one in each iteration from
    Go 1.22 on.  buildCounters stores [&event.Time], so the two differ. *)
Inductive rangeVar : Type := PerLoop | PerIteration.

(** The state of the loop of buildCounters.  [timeCells] holds the [Time]
    field of every instance of the loop variable, [startTime] and [endTime]
    are addresses into it ([None] is [nil]). *)
Record countState : Type := CountState {
  startTime : option nat;
  endTime : option nat;
  counters : counterMap;
  timeCells : list Z
}.

(** [event = events[i]]: where the loop variable lives and what the cells
    hold afterwards. *)
Definition bindEvent (rv : rangeVar) (cells : list Z) (time : Z) : nat * list Z :=
  match rv with
  | PerLoop => (0%nat, [time])
  | PerIteration => (length cells, cells ++ [time])
  end.

Definition load (cells : list Z) (p : nat) : Z := default 0 (cells !! p).

(** One iteration of the loop of buildCounters. *)
Definition countEvent (rv : rangeVar) (st : countState) (event : AccessEvent.t) : countState :=
  let '(here, cells) := bindEvent rv (timeCells st) (AccessEvent.Time event) in
  let startTime' :=
    match startTime st with
    | None => Some here
    | Some p => if load cells p <? AccessEvent.Time event then Some here else Some p
    end in
  let endTime' :=
    match endTime st with
    | None => Some here
    | Some p => if load cells p >? AccessEvent.Time event then Some here else Some p
    end in
  let v := Variation.mk (AccessEvent.Key event) (AccessEvent.Index event)
             (AccessEvent.Version event) in
  let counters' :=
    match counterMap_get (counters st) v with
    | None => counterMap_add (counters st) v (CountValue.mk 1 (AccessEvent.Value event))
    | Some c =>
        (* [c.Count += 1] updates the copy [c]; the map keeps its entry *)
        let c := CountValue.mk (CountValue.Count c + 1) (CountValue.Value c) in
        counters st
    end in
  CountState startTime' endTime' counters' cells.

(** buildCounters; [None] is the nil dereference of [*startTime] that an
    empty batch runs into. *)
Definition buildCounters (rv : rangeVar) (events : list AccessEvent.t)
  : option (counterMap * Z * Z) :=
  let st := fold_left (countEvent rv) events (CountState None None [] []) in
  match startTime st, endTime st with
  | Some s, Some e => Some (counters st, load (timeCells st) s, load (timeCells st) e)
  | _, _ => None
  end.

(** The body of the loop of buildAccess, for one entry of the map. *)
Definition addCounter (acc : gmap string (list ToggleCounter.t))
    (kv : Variation.t * CountValue.t) : gmap string (list ToggleCounter.t) :=
  let '(k, v) := kv in
  let counter := ToggleCounter.mk (CountValue.Value v) (Variation.Version k)
                   (Variation.Index k) (CountValue.Count v) in
  match acc !! Variation.Key k with
  | None => <[Variation.Key k := [counter]]> acc
  | Some c => <[Variation.Key k := c ++ [counter]]> acc
  end.

(** buildAccess when [range counters] visits the entries in the order
    [order].  Go leaves that order open. *)
Definition buildAccessIn (order : counterMap) (startTime endTime : Z) : Access.t :=
  Access.mk startTime endTime (fold_left addCounter order ∅).

(** buildAccess in the run in which [range counters] visits the entries in
    the order they were stored.  Go leaves the order open: [buildAccess_any]
    below has the result of every run, and what depends on the order is
    stated over it. *)
Definition buildAccess (rv : rangeVar) (events : list AccessEvent.t) : option Access.t :=
  match buildCounters rv events with
  | Some (counters, startTime, endTime) => Some (buildAccessIn counters startTime endTime)
  | None => None
  end.

(** Every result buildAccess can have, over the orders of [range counters]. *)
Definition buildAccess_any (rv : rangeVar) (events : list AccessEvent.t) (a : Access.t) : Prop :=
  exists counters startTime endTime order,
    buildCounters rv events = Some (counters, startTime, endTime)
    /\ Permutation order counters
    /\ a = buildAccessIn order startTime endTime.

(** buildPackedData: a slice of one PackedData. *)
Definition buildPackedData (rv : rangeVar) (events : list AccessEvent.t)
  : option (list PackedData.t) :=
  match buildAccess rv events with
  | Some access => Some [PackedData.mk events access]
  | None => None
  end.

(** * The telemetry document *)

(** A JSON document, as a tree.  The members of an object that comes from a
    Go map are listed in the order of [map_to_list]; json.Marshal sorts them
    by key, which a JSON object does not distinguish. *)
Inductive json : Type :=
| JNull
| JBool (b : bool)
| JInt (n : Z)
| JFloat (f : float64)
| JString (s : string)
| JArray (items : list json)
| JObject (members : list (string * json)).

(** json.Marshal on an [interface{}] value; [None] is its
    UnsupportedValueError, for NaN and the infinities. *)
Fixpoint marshalValue (v : value) : option json :=
  match v with
  | VNil => Some JNull
  | VBool b => Some (JBool b)
  | VInt i => Some (JInt i)
  | VFloat f => if float64_finite f then Some (JFloat f) else None
  | VStr s => Some (JString s)
  | VSlice l => JArray <$> mapM marshalValue l
  | VMap m => JObject <$> mapM (fun kv => pair (fst kv) <$> marshalValue (snd kv)) m
  end.

(** A [*int] or [*uint64] field: [null] for nil, the number otherwise. *)
Definition marshalPtr (p : option (ptr Z)) : json :=
  match p with
  | None => JNull
  | Some q => JInt (deref q)
  end.

(** The structs, member names from their [json] tags, in field order. *)
Definition marshalAccessEvent (e : AccessEvent.t) : option json :=
  v ← marshalValue (AccessEvent.Value e);
  Some (JObject [("time", JInt (AccessEvent.Time e));
                 ("key", JString (AccessEvent.Key e));
                 ("value", v);
                 ("index", marshalPtr (AccessEvent.Index e));
                 ("version", marshalPtr (AccessEvent.Version e));
                 ("reason", JString (AccessEvent.Reason e))]).

Definition marshalToggleCounter (c : ToggleCounter.t) : option json :=
  v ← marshalValue (ToggleCounter.Value c);
  Some (JObject [("value", v);
                 ("version", marshalPtr (ToggleCounter.Version c));
                 ("index", marshalPtr (ToggleCounter.Index c));
                 ("count", JInt (ToggleCounter.Count c))]).

Definition marshalCounters (m : gmap string (list ToggleCounter.t)) : option json :=
  JObject <$>
    mapM (fun kc => (fun cs => (fst kc, JArray cs)) <$> mapM marshalToggleCounter (snd kc))
         (map_to_list m).

Definition marshalAccess (a : Access.t) : option json :=
  counters ← marshalCounters (Access.Counters a);
  Some (JObject [("startTime", JInt (Access.StartTime a));
                 ("endTime", JInt (Access.EndTime a));
                 ("counters", counters)]).

Definition marshalPackedData (p : PackedData.t) : option json :=
  events ← mapM marshalAccessEvent (PackedData.Events p);
  access ← marshalAccess (PackedData.Access p);
  Some (JObject [("events", JArray events); ("access", access)]).

(** json.Marshal on the [[]PackedData] that doFlush passes to it. *)
Definition Marshal (packedData : list PackedData.t) : option json :=
  JArray <$> mapM marshalPackedData packedData.

(** * event.go: the recorder *)

Definition VERSION : string := "1.1.0".
Definition USER_AGENT : string := "Go/" +:+ VERSION.

(** A [chan struct{}] on which nothing is ever sent. *)
Inductive chanState : Type := ChanNil | ChanOpen | ChanClosed.

(** [int64] arithmetic wraps around. *)
Definition wrap64 (z : Z) : Z := (z + 2 ^ 63) mod 2 ^ 64 - 2 ^ 63.

(** [time.Millisecond], in nanoseconds. *)
Definition Millisecond : Z := 1000000.

Module EventRecorder.
(** [wg] is the counter of the WaitGroup, [startOnce] and [stopOnce] tell
    whether the Once has run, [ticker] is the period of the ticker once it
    is made.  The mutex is left out: every operation below is one atomic
    step.  The HTTP client only carries its timeout, [flushInterval]
    milliseconds. *)
Record t : Type := mk {
  auth : string;
  eventsUrl : string;
  flushInterval : Z;
  incomingEvents : list AccessEvent.t;
  packedData : list PackedData.t;
  wg : Z;
  startOnce : bool;
  stopOnce : bool;
  stopChan : chanState;
  ticker : option Z
}.

Definition with_incomingEvents (e : t) (events : list AccessEvent.t) : t :=
  mk (auth e) (eventsUrl e) (flushInterval e) events (packedData e)
     (wg e) (startOnce e) (stopOnce e) (stopChan e) (ticker e).

Definition with_wg (e : t) (n : Z) : t :=
  mk (auth e) (eventsUrl e) (flushInterval e) (incomingEvents e) (packedData e)
     n (startOnce e) (stopOnce e) (stopChan e) (ticker e).

Definition with_startOnce_ticker (e : t) (period : Z) : t :=
  mk (auth e) (eventsUrl e) (flushInterval e) (incomingEvents e) (packedData e)
     (wg e) true (stopOnce e) (stopChan e) (Some period).

Definition with_closed_stopChan (e : t) : t :=
  mk (auth e) (eventsUrl e) (flushInterval e) (incomingEvents e) (packedData e)
     (wg e) (startOnce e) true ChanClosed (ticker e).
End EventRecorder.

Definition NewEventRecorder (eventsUrl : string) (flushInterval : Z) (auth : string)
  : EventRecorder.t :=
  EventRecorder.mk auth eventsUrl flushInterval [] [] 0 false false ChanOpen None.

(** RecordAccess *)
Definition RecordAccess (e : EventRecorder.t) (event : AccessEvent.t) : EventRecorder.t :=
  EventRecorder.with_incomingEvents e (EventRecorder.incomingEvents e ++ [event]).

(** The request doFlush hands to the HTTP client.  [Body] is [None] when
    json.Marshal failed: its error is dropped and the body is empty. *)
Record Request : Type := mkRequest {
  Method : string;
  URL : string;
  Header : list (string * string);
  Body : option json
}.

Inductive flushOutcome : Type :=
| NothingPending
| NilDereference
| RequestRefused
| Posted (req : Request).

Section Recorder.

(** Which Go version the module is built for. *)
Variable rv : rangeVar.
(** Whether http.NewRequest accepts the URL. *)
Variable parseURL : string -> bool.

(** doFlush: the recorder afterwards and what happened.  The answer of the
    collector, or the error of the HTTP client, is printed and dropped. *)
Definition doFlush (e : EventRecorder.t) : EventRecorder.t * flushOutcome :=
  let events := EventRecorder.incomingEvents e in
  let e := EventRecorder.with_incomingEvents e [] in
  if (length events =? 0)%nat then (e, NothingPending)
  else
    match buildPackedData rv events with
    | None => (e, NilDereference)
    | Some packedData =>
        let body := Marshal packedData in
        if parseURL (EventRecorder.eventsUrl e) then
          (e, Posted (mkRequest "POST" (EventRecorder.eventsUrl e)
                        [("Authorization", EventRecorder.auth e);
                         ("Content-Type", "application/json");
                         ("User-Agent", USER_AGENT)]
                        body))
        else (e, RequestRefused)
    end.

(** Start, as far as the struct goes: the recorder afterwards and whether
    the flush loop was launched.  [None] is the panic of time.NewTicker
    on a period that is not positive. *)
Definition Start (e : EventRecorder.t) : option (EventRecorder.t * bool) :=
  let e := EventRecorder.with_wg e (EventRecorder.wg e + 1) in
  if EventRecorder.startOnce e then Some (e, false)
  else
    let period := wrap64 (EventRecorder.flushInterval e * Millisecond) in
    if period <=? 0 then None
    else Some (EventRecorder.with_startOnce_ticker e period, true).

(** Stop up to its [e.wg.Wait()]. *)
Definition StopSignal (e : EventRecorder.t) : EventRecorder.t :=
  match EventRecorder.stopChan e with
  | ChanNil => e
  | _ => if EventRecorder.stopOnce e then e else EventRecorder.with_closed_stopChan e
  end.

(** ** The recorder with its flush loop and its callers *)

Inductive goroutine : Type := NotLaunched | Running | Returned.

(** [launched] counts the flush loops that were started, [flushed] lists the
    outcome of every doFlush in order, [finalFlushes] counts the runs of the
    [<-e.stopChan] case, [waiting] the calls of Stop that are inside
    [e.wg.Wait()], [stopped] the calls of Stop that have returned. *)
Record system : Type := System {
  recorder : EventRecorder.t;
  flushLoop : goroutine;
  launched : nat;
  flushed : list flushOutcome;
  finalFlushes : nat;
  waiting : nat;
  stopped : nat
}.

Definition boot (e : EventRecorder.t) : system := System e NotLaunched 0 [] 0 0 0.

Inductive action : Type :=
| CallStart
| CallRecordAccess (event : AccessEvent.t)
| CallStop
| StopReturns
| TickCase
| StopCase.

(** One step; [None] when the action cannot happen in this state (or, for
    CallStart, panics). *)
Definition step (s : system) (a : action) : option system :=
  match a with
  | CallStart =>
      match Start (recorder s) with
      | Some (e, true) =>
          Some (System e Running (S (launched s)) (flushed s) (finalFlushes s)
                  (waiting s) (stopped s))
      | Some (e, false) =>
          Some (System e (flushLoop s) (launched s) (flushed s) (finalFlushes s)
                  (waiting s) (stopped s))
      | None => None
      end
  | CallRecordAccess event =>
      Some (System (RecordAccess (recorder s) event) (flushLoop s) (launched s)
              (flushed s) (finalFlushes s) (waiting s) (stopped s))
  | CallStop =>
      Some (System (StopSignal (recorder s)) (flushLoop s) (launched s)
              (flushed s) (finalFlushes s) (S (waiting s)) (stopped s))
  | StopReturns =>
      match waiting s with
      | O => None
      | S n =>
          if EventRecorder.wg (recorder s) =? 0 then
            Some (System (recorder s) (flushLoop s) (launched s) (flushed s)
                    (finalFlushes s) n (S (stopped s)))
          else None
      end
  | TickCase =>
      match flushLoop s with
      | Running =>
          let '(e, o) := doFlush (recorder s) in
          Some (System e Running (launched s) (flushed s ++ [o]) (finalFlushes s)
                  (waiting s) (stopped s))
      | _ => None
      end
  | StopCase =>
      match flushLoop s, EventRecorder.stopChan (recorder s) with
      | Running, ChanClosed =>
          let '(e, o) := doFlush (recorder s) in
          let e := EventRecorder.with_wg e (EventRecorder.wg e - 1) in
          Some (System e Returned (launched s) (flushed s ++ [o])
                  (S (finalFlushes s)) (waiting s) (stopped s))
      | _, _ => None
      end
  end.

(** A run: the actions one after the other. *)
Fixpoint run (s : system) (trace : list action) : option system :=
  match trace with
  | [] => Some s
  | a :: rest =>
      match step s a with
      | Some s' => run s' rest
      | None => None
      end
  end.

End Recorder.

(** * featureprobe.go: configuration *)

Module FPConfig.
Record t : Type := mk {
  RemoteUrl : string;
  TogglesUrl : string;
  EventsUrl : string;
  ServerSdkKey : string;
  RefreshInterval : Z;
  WaitFirstResp : bool
}.
End FPConfig.

(** [type Option func(fpConfig *FPConfig)]: the configuration it leaves. *)
Definition Option : Type := FPConfig.t -> FPConfig.t.

Definition WithTogglesUri (uri : string) : Option := fun fpConfig =>
  FPConfig.mk (FPConfig.RemoteUrl fpConfig)
    (FPConfig.RemoteUrl fpConfig +:+ uri)
    (FPConfig.EventsUrl fpConfig) (FPConfig.ServerSdkKey fpConfig)
    (FPConfig.RefreshInterval fpConfig) (FPConfig.WaitFirstResp fpConfig).

Definition WithEventsUri (uri : string) : Option := fun fpConfig =>
  FPConfig.mk (FPConfig.RemoteUrl fpConfig) (FPConfig.TogglesUrl fpConfig)
    (FPConfig.RemoteUrl fpConfig +:+ uri)
    (FPConfig.ServerSdkKey fpConfig)
    (FPConfig.RefreshInterval fpConfig) (FPConfig.WaitFirstResp fpConfig).

Definition WithRefreshInterval (interval : Z) : Option := fun fpConfig =>
  FPConfig.mk (FPConfig.RemoteUrl fpConfig) (FPConfig.TogglesUrl fpConfig)
    (FPConfig.EventsUrl fpConfig) (FPConfig.ServerSdkKey fpConfig)
    interval (FPConfig.WaitFirstResp fpConfig).

Definition WithWaitFirstResp (wait : bool) : Option := fun fpConfig =>
  FPConfig.mk (FPConfig.RemoteUrl fpConfig) (FPConfig.TogglesUrl fpConfig)
    (FPConfig.EventsUrl fpConfig) (FPConfig.ServerSdkKey fpConfig)
    (FPConfig.RefreshInterval fpConfig) wait.

(** NewFeatureProbe up to the end of its loop over [opts]. *)
Definition configure (remoteUrl severSdkKey : string) (opts : list Option) : FPConfig.t :=
  let remoteUrl := if HasSuffix remoteUrl "/" then remoteUrl else remoteUrl +:+ "/" in
  let fpConfig :=
    FPConfig.mk remoteUrl (remoteUrl +:+ "api/server-sdk/toggles")
      (remoteUrl +:+ "api/events") severSdkKey 2000 true in
  fold_left (fun fpConfig opt => opt fpConfig) opts fpConfig.

(** * The snapshot and the evaluation result *)

(** Modelled from the spec: FPUser is not under src/.  Section 3: a key, a
    mapping of attributes, and the identity a stable rollout pins. *)
Module FPUser.
Record t : Type := mk {
  Key : string;
  Attrs : gmap string string;
  StableRollout : option string
}.
End FPUser.

(** Modelled from the spec: Condition is not under src/.  Section 3: a
    subject, a predicate and the operands to compare with. *)
Module Condition.
Record t : Type := mk {
  Subject : string;
  Predicate : string;
  Objects : list string
}.
End Condition.

(** Modelled from the spec: Serve is not under src/, newToggleForTest sets
    its [Select].  Section 3: a fixed variation index, or a split, an
    ordered list of (cumulative upper bound, variation index) over [0, 1). *)
Module Serve.
Record t : Type := mk {
  Select : option Z;
  Split : option (list (Q * Z))
}.
End Serve.

(** Modelled from the spec: Rule is not under src/.  Section 3: conditions,
    all of which must hold, and a serve. *)
Module Rule.
Record t : Type := mk {
  Conditions : list Condition.t;
  Serve : Serve.t
}.
End Rule.

(** Modelled from the spec: Segment is not under src/.  Section 3: rules of
    conditions, any of which makes the user a member. *)
Module Segment.
Record t : Type := mk {
  Rules : list (list Condition.t)
}.
End Segment.

(** Toggle is not under src/; the fields are those newToggleForTest sets. *)
Module Toggle.
Record t : Type := mk {
  Key : string;
  Enabled : bool;
  DefaultServe : Serve.t;
  DisabledServe : Serve.t;
  Version : Z;
  ForClient : bool;
  Variations : list value;
  Rules : list Rule.t
}.
End Toggle.

(** Repository is not under src/; genericDetail reads the two maps. *)
Module Repository.
Record t : Type := mk {
  Toggles : gmap string Toggle.t;
  Segments : gmap string Segment.t
}.
End Repository.

(** EvalDetail is not under src/; genericDetail reads these five fields. *)
Module EvalDetail.
Record t : Type := mk {
  Value : value;
  VariationIndex : option (ptr Z);
  RuleIndex : option (ptr Z);
  Version : option (ptr Z);
  Reason : string
}.
End EvalDetail.

(** A Go [error]: [None] is [nil]. *)
Definition error : Type := option string.

(** The signature of Toggle.evalDetail. *)
Definition evaluator : Type :=
  Toggle.t -> FPUser.t -> gmap string Segment.t -> EvalDetail.t * error.

(** * featureprobe.go: the client *)

(** The Syncer field is left out: the synchronizer is not under src/ and no
    accessor reads it. *)
Module FeatureProbe.
Record t : Type := mk {
  Config : FPConfig.t;
  Repo : option Repository.t;
  Recorder : option EventRecorder.t
}.

Definition with_Recorder (fp : t) (e : EventRecorder.t) : t :=
  mk (Config fp) (Repo fp) (Some e).
End FeatureProbe.

(** FPBoolDetail, FPNumberDetail, FPStrDetail and FPJsonDetail differ in
    the type of [Value] only. *)
Module FPDetail.
Record t (A : Type) : Type := mk {
  Value : A;
  RuleIndex : option (ptr Z);
  Version : option (ptr Z);
  Reason : string
}.
Arguments mk {A} _ _ _ _.
Arguments Value {A} _.
Arguments RuleIndex {A} _.
Arguments Version {A} _.
Arguments Reason {A} _.

Definition with_Value {A} (d : t A) (v : A) : t A :=
  mk v (RuleIndex d) (Version d) (Reason d).
Definition with_Reason {A} (d : t A) (reason : string) : t A :=
  mk (Value d) (RuleIndex d) (Version d) reason.
End FPDetail.

Definition FPBoolDetail : Type := FPDetail.t bool.
Definition FPNumberDetail : Type := FPDetail.t float64.
Definition FPStrDetail : Type := FPDetail.t string.
Definition FPJsonDetail : Type := FPDetail.t value.

(** The empty [Repository{}]: both maps are nil and read as empty. *)
Definition emptyRepository : Repository.t := Repository.mk ∅ ∅.

(** NewFeatureProbe.  [None] is the panic of the recorder's Start.  The
    synchronizer, which fills the repository later on, is not under src/:
    the repository is the empty one the function starts with. *)
Definition NewFeatureProbe (remoteUrl severSdkKey : string) (opts : list Option)
  : option FeatureProbe.t :=
  let fpConfig := configure remoteUrl severSdkKey opts in
  let timeout := FPConfig.RefreshInterval fpConfig in
  let eventRecorder :=
    NewEventRecorder (FPConfig.EventsUrl fpConfig) timeout (FPConfig.ServerSdkKey fpConfig) in
  match Start eventRecorder with
  | Some (eventRecorder, _) =>
      Some (FeatureProbe.mk fpConfig (Some emptyRepository) (Some eventRecorder))
  | None => None
  end.

Definition newToggleForTest (key : string) (value : value) : Toggle.t :=
  let s := 0 in
  Toggle.mk key true (Serve.mk (Some s) None) (Serve.mk (Some s) None) 0 false [value] [].

(** The zero [FPConfig{}]. *)
Definition zeroConfig : FPConfig.t := FPConfig.mk "" "" "" "" 0 false.

Definition NewFeatureProbeForTest (toggles : gmap string value) : FeatureProbe.t :=
  let repo := Repository.mk (map_imap (fun key value => Some (newToggleForTest key value)) toggles) ∅ in
  FeatureProbe.mk zeroConfig (Some repo) None.

Section Facade.

(** Toggle.evalDetail, which is not under src/. *)
Variable evalDetail : evaluator.

(** genericDetail.  [nanos] is the reading [time.Now().UnixNano()] of the
    clock; the client comes back with its recorder as the call left it. *)
Definition genericDetail (fp : FeatureProbe.t) (nanos : Z) (toggle : string)
    (user : FPUser.t) (defaultValue : value)
  : value * option (ptr Z) * option (ptr Z) * string * FeatureProbe.t :=
  let value := defaultValue in
  let reason := "Toggle:[" +:+ toggle +:+ "] not exist" in
  match FeatureProbe.Repo fp with
  | None => (value, None, None, reason, fp)
  | Some repo =>
      match Repository.Toggles repo !! toggle with
      | None => (value, None, None, reason, fp)
      | Some t =>
          let '(detail, err) := evalDetail t user (Repository.Segments repo) in
          let variationIndex := EvalDetail.VariationIndex detail in
          let ruleIndex := EvalDetail.RuleIndex detail in
          let version := EvalDetail.Version detail in
          let reason := EvalDetail.Reason detail in
          let value := match err with None => EvalDetail.Value detail | Some _ => value end in
          let fp :=
            match FeatureProbe.Recorder fp with
            | Some recorder =>
                FeatureProbe.with_Recorder fp
                  (RecordAccess recorder
                     (AccessEvent.mk (Z.quot nanos 1000000) toggle value variationIndex
                        version reason))
            | None => fp
            end in
          (value, ruleIndex, version, reason, fp)
      end
  end.

Definition BoolValue (fp : FeatureProbe.t) (nanos : Z) (toggle : string) (user : FPUser.t)
    (defaultValue : bool) : bool * FeatureProbe.t :=
  let '(val, _, _, _, fp) := genericDetail fp nanos toggle user (VBool defaultValue) in
  match assertBool val with
  | None => (defaultValue, fp)
  | Some r => (r, fp)
  end.

Definition StrValue (fp : FeatureProbe.t) (nanos : Z) (toggle : string) (user : FPUser.t)
    (defaultValue : string) : string * FeatureProbe.t :=
  let '(val, _, _, _, fp) := genericDetail fp nanos toggle user (VStr defaultValue) in
  match assertString val with
  | None => (defaultValue, fp)
  | Some r => (r, fp)
  end.

Definition NumberValue (fp : FeatureProbe.t) (nanos : Z) (toggle : string) (user : FPUser.t)
    (defaultValue : float64) : float64 * FeatureProbe.t :=
  let '(val, _, _, _, fp) := genericDetail fp nanos toggle user (VFloat defaultValue) in
  match assertInt val with
  | Some i => (float64_of_int i, fp)
  | None =>
      match assertFloat64 val with
      | None => (defaultValue, fp)
      | Some f => (f, fp)
      end
  end.

Definition JsonValue (fp : FeatureProbe.t) (nanos : Z) (toggle : string) (user : FPUser.t)
    (defaultValue : value) : value * FeatureProbe.t :=
  let '(val, _, _, _, fp) := genericDetail fp nanos toggle user defaultValue in
  (val, fp).

Definition BoolDetail (fp : FeatureProbe.t) (nanos : Z) (toggle : string) (user : FPUser.t)
    (defaultValue : bool) : FPBoolDetail * FeatureProbe.t :=
  let '(value, ruleIndex, version, reason, fp) :=
    genericDetail fp nanos toggle user (VBool defaultValue) in
  let detail := FPDetail.mk defaultValue ruleIndex version reason in
  match assertBool value with
  | None => (FPDetail.with_Reason detail "Value type mismatch", fp)
  | Some val => (FPDetail.with_Value detail val, fp)
  end.

Definition StrDetail (fp : FeatureProbe.t) (nanos : Z) (toggle : string) (user : FPUser.t)
    (defaultValue : string) : FPStrDetail * FeatureProbe.t :=
  let '(value, ruleIndex, version, reason, fp) :=
    genericDetail fp nanos toggle user (VStr defaultValue) in
  let detail := FPDetail.mk defaultValue ruleIndex version reason in
  match assertString value with
  | None => (FPDetail.with_Reason detail "Value type mismatch", fp)
  | Some val => (FPDetail.with_Value detail val, fp)
  end.

Definition NumberDetail (fp : FeatureProbe.t) (nanos : Z) (toggle : string) (user : FPUser.t)
    (defaultValue : float64) : FPNumberDetail * FeatureProbe.t :=
  let '(value, ruleIndex, version, reason, fp) :=
    genericDetail fp nanos toggle user (VFloat defaultValue) in
  let detail := FPDetail.mk defaultValue ruleIndex version reason in
  match assertFloat64 value with
  | None => (FPDetail.with_Reason detail "Value type mismatch", fp)
  | Some val => (FPDetail.with_Value detail val, fp)
  end.

Definition JsonDetail (fp : FeatureProbe.t) (nanos : Z) (toggle : string) (user : FPUser.t)
    (defaultValue : value) : FPJsonDetail * FeatureProbe.t :=
  let '(value, ruleIndex, version, reason, fp) :=
    genericDetail fp nanos toggle user defaultValue in
  let detail := FPDetail.mk value ruleIndex version reason in
  (detail, fp).

(** What the lookup and the evaluation inside genericDetail come to:
    [None] when the repository is nil or does not hold the key. *)
Definition resolved (fp : FeatureProbe.t) (toggle : string) (user : FPUser.t)
  : option (EvalDetail.t * error) :=
  match FeatureProbe.Repo fp with
  | None => None
  | Some repo =>
      match Repository.Toggles repo !! toggle with
      | None => None
      | Some t => Some (evalDetail t user (Repository.Segments repo))
      end
  end.

(** A call of one of the eight accessors, with its default value. *)
Variant accessor : Type :=
| CallBoolValue (defaultValue : bool)
| CallStrValue (defaultValue : string)
| CallNumberValue (defaultValue : float64)
| CallJsonValue (defaultValue : value)
| CallBoolDetail (defaultValue : bool)
| CallStrDetail (defaultValue : string)
| CallNumberDetail (defaultValue : float64)
| CallJsonDetail (defaultValue : value).

(** The default value as the accessor hands it to genericDetail. *)
Definition defaultOf (call : accessor) : value :=
  match call with
  | CallBoolValue d | CallBoolDetail d => VBool d
  | CallStrValue d | CallStrDetail d => VStr d
  | CallNumberValue d | CallNumberDetail d => VFloat d
  | CallJsonValue d | CallJsonDetail d => d
  end.

(** The client after the call. *)
Definition clientAfter (call : accessor) (fp : FeatureProbe.t) (nanos : Z)
    (toggle : string) (user : FPUser.t) : FeatureProbe.t :=
  match call with
  | CallBoolValue d => snd (BoolValue fp nanos toggle user d)
  | CallStrValue d => snd (StrValue fp nanos toggle user d)
  | CallNumberValue d => snd (NumberValue fp nanos toggle user d)
  | CallJsonValue d => snd (JsonValue fp nanos toggle user d)
  | CallBoolDetail d => snd (BoolDetail fp nanos toggle user d)
  | CallStrDetail d => snd (StrDetail fp nanos toggle user d)
  | CallNumberDetail d => snd (NumberDetail fp nanos toggle user d)
  | CallJsonDetail d => snd (JsonDetail fp nanos toggle user d)
  end.

End Facade.

(** The events waiting in the recorder of a client. *)
Definition pending (fp : FeatureProbe.t) : list AccessEvent.t :=
  match FeatureProbe.Recorder fp with
  | Some recorder => EventRecorder.incomingEvents recorder
  | None => []
  end.

(** * The evaluation engine, from the specification *)

Section Engine.

(** Whether a condition holds for a user (section 4.1, steps 2 and 6), the
    position in [0, 1) that a user takes for a toggle (steps 4 and 7), and
    the address at which the result is allocated: the specification leaves
    the three open. *)
Variable conditionHolds : Condition.t -> FPUser.t -> gmap string Segment.t -> bool.
Variable bucket : FPUser.t -> string -> Q.
Variable alloc : positive.

(** Modelled from the spec: the scan of the rules is not under src/.
    Section 4.1, step 2: the first rule whose conditions all hold, with its
    position. *)
Fixpoint firstRule (rules : list Rule.t) (position : Z) (user : FPUser.t)
    (segments : gmap string Segment.t) : option (Z * Rule.t) :=
  match rules with
  | [] => None
  | rule :: rest =>
      if forallb (fun c => conditionHolds c user segments) (Rule.Conditions rule)
      then Some (position, rule)
      else firstRule rest (position + 1) user segments
  end.

(** Modelled from the spec: the resolution of a serve is not under src/.
    Section 4.1, step 4: the fixed index, or the first range of the split
    whose upper bound exceeds the bucket. *)
Definition resolveServe (serve : Serve.t) (user : FPUser.t) (toggleKey : string) : option Z :=
  match Serve.Select serve with
  | Some index => Some index
  | None =>
      match Serve.Split serve with
      | Some ranges =>
          snd <$> List.find (fun r => negb (Qle_bool (fst r) (bucket user toggleKey))) ranges
      | None => None
      end
  end.

(** Modelled from the spec: Toggle.evalDetail is not under src/.  Section
    4.1, steps 1 to 5: the disabled serve of a disabled toggle, else the
    serve of the first matching rule, else the default serve; an index
    outside the variations is an error whose reason has the word
    overflow and which carries no variation index. *)
Definition evalDetail_spec : evaluator := fun t user segments =>
  let '(serve, ruleIndex, reason) :=
    if negb (Toggle.Enabled t) then (Toggle.DisabledServe t, None, "toggle disabled")
    else
      match firstRule (Toggle.Rules t) 0 user segments with
      | Some (position, rule) =>
          (Rule.Serve rule, Some (Ptr (alloc + 1) position), "rule " +:+ pretty position)
      | None => (Toggle.DefaultServe t, None, "default rule")
      end in
  let version := Some (Ptr (alloc + 2) (Toggle.Version t)) in
  let overflow :=
    (EvalDetail.mk VNil None ruleIndex version "variation index overflow",
     Some "variation index overflow") in
  match resolveServe serve user (Toggle.Key t) with
  | Some index =>
      if index <? 0 then overflow
      else
        match Toggle.Variations t !! Z.to_nat index with
        | Some v => (EvalDetail.mk v (Some (Ptr alloc index)) ruleIndex version reason, None)
        | None => overflow
        end
  | None => overflow
  end.

End Engine.

(** The engine on toggles without rules and without splits, as
    newToggleForTest builds them: no condition is ever asked for and no
    bucket is ever drawn. *)
Definition evalFixed : evaluator :=
  evalDetail_spec (fun _ _ _ => false) (fun _ _ => 0%Q) 1%positive.

(** A user without attributes, for the examples. *)
Definition plainUser : FPUser.t := FPUser.mk "user" ∅ None.

(** Whether json.Marshal can encode the value. *)
Definition encodable (v : value) : bool :=
  match marshalValue v with
  | Some _ => true
  | None => false
  end.

(** The greatest and the least of [x :: l]. *)
Definition maximum (x : Z) (l : list Z) : Z := fold_left Z.max l x.
Definition minimum (x : Z) (l : list Z) : Z := fold_left Z.min l x.

(** The key under which buildCounters files an event. *)
Definition variationOf (event : AccessEvent.t) : Variation.t :=
  Variation.mk (AccessEvent.Key event) (AccessEvent.Index event) (AccessEvent.Version event).

(** The counter that buildAccess makes of an entry of the map. *)
Definition counterOf (kc : Variation.t * CountValue.t) : ToggleCounter.t :=
  ToggleCounter.mk (CountValue.Value (snd kc)) (Variation.Version (fst kc))
    (Variation.Index (fst kc)) (CountValue.Count (snd kc)).

(** Every counter filed in [acc] is made of an entry of [entries], and is
    filed under the toggle key of that entry. *)
Definition filed_from (entries : counterMap) (acc : gmap string (list ToggleCounter.t)) : Prop :=
  forall key cs c, acc !! key = Some cs -> c ∈ cs ->
    exists kc, kc ∈ entries /\ c = counterOf kc /\ key = Variation.Key (fst kc).

(** Every entry of the map has count 1 and the value of one of the events. *)
Definition fresh_counts (events : list AccessEvent.t) (cs : counterMap) : Prop :=
  Forall (fun kc => exists event, event ∈ events /\ fst kc = variationOf event
                    /\ snd kc = CountValue.mk 1 (AccessEvent.Value event)) cs.

(** The document the specification describes: one object with the members
    events and access. *)
Definition telemetryObject (doc : json) : Prop :=
  exists events access, doc = JObject [("events", events); ("access", access)].

(** * Sample data *)

Definition sampleEvent (time : Z) : AccessEvent.t :=
  AccessEvent.mk time "t" (VBool true) None None "default rule".

(** A recorder with one event waiting. *)
Definition sampleRecorder : EventRecorder.t :=
  RecordAccess (NewEventRecorder "http://collector/api/events" 2000 "server-key")
    (sampleEvent 1).

(** The request that a flush of [sampleRecorder] posts. *)
Definition sampleRequest : Request :=
  match snd (doFlush PerLoop (fun _ => true) sampleRecorder) with
  | Posted req => req
  | _ => mkRequest "" "" [] None
  end.

(** * Invariants of the life cycle *)

(** A recorder whose WaitGroup counts more than its one flush loop: Start
    ran more than once.  No call of Stop has returned. *)
Definition overcounted (s : system) : Prop :=
  EventRecorder.startOnce (recorder s) = true
  /\ launched s = 1%nat /\ stopped s = 0%nat
  /\ ((flushLoop s = Running /\ 2 <= EventRecorder.wg (recorder s)
        /\ finalFlushes s = 0%nat)
      \/ (flushLoop s = Returned /\ 1 <= EventRecorder.wg (recorder s)
          /\ finalFlushes s = 1%nat)).

(** A recorder on which Start ran once: the WaitGroup counts the flush
    loop until its final flush is over. *)
Definition counted (s : system) : Prop :=
  launched s = 1%nat
  /\ ((flushLoop s = Running /\ EventRecorder.wg (recorder s) = 1
        /\ finalFlushes s = 0%nat /\ stopped s = 0%nat)
      \/ (flushLoop s = Returned /\ EventRecorder.wg (recorder s) = 0
          /\ finalFlushes s = 1%nat)).

(** A client with a recorder and no repository. *)
Definition bareClient : FeatureProbe.t :=
  FeatureProbe.mk zeroConfig None (Some (NewEventRecorder "http://collector/api/events" 2000 "key")).

(** A client with a recorder whose repository holds one toggle, "number_toggle",
    with the one variation 2.0. *)
Definition numberClient : FeatureProbe.t :=
  FeatureProbe.mk zeroConfig
    (FeatureProbe.Repo (NewFeatureProbeForTest {[ "number_toggle" := VFloat (float64_of_int 2) ]}))
    (Some (NewEventRecorder "http://collector/api/events" 2000 "key")).

(** The client of TestUnitTestingForCaller, as far as "toggle0" goes. *)
Definition intClient : FeatureProbe.t :=
  NewFeatureProbeForTest {[ "toggle0" := VInt 0 ]}.

(** * Further definitions *)

(** NewTestClient *)
Definition NewTestClient (opts : list Option) : option FeatureProbe.t :=
  NewFeatureProbe "" "" opts.

(** setRepoForTest *)
Definition setRepoForTest (fp : FeatureProbe.t) (repo : Repository.t) : FeatureProbe.t :=
  FeatureProbe.mk (FeatureProbe.Config fp) (Some repo) (FeatureProbe.Recorder fp).

(** The first event of a batch that is filed under the key [k]. *)
Definition firstFiled (events : list AccessEvent.t) (k : Variation.t) : option AccessEvent.t :=
  List.find (fun event => Variation.eqb (variationOf event) k) events.

(** The calls of Start in a trace, and the events its calls of RecordAccess
    hand over, in order. *)
Definition isStart (a : action) : bool :=
  match a with
  | CallStart => true
  | _ => false
  end.

Definition starts (trace : list action) : Z := Z.of_nat (length (filter isStart trace)).

Fixpoint recorded (trace : list action) : list AccessEvent.t :=
  match trace with
  | [] => []
  | CallRecordAccess event :: rest => event :: recorded rest
  | _ :: rest => recorded rest
  end.

(** The WaitGroup of a recorder on which Start was called [n] times: it
    counts the calls of Start less the one Done of the flush loop. *)
Definition accounted (s : system) (n : Z) : Prop :=
  EventRecorder.wg (recorder s) = n - Z.of_nat (finalFlushes s)
  /\ ((flushLoop s = NotLaunched /\ launched s = 0%nat
       /\ EventRecorder.startOnce (recorder s) = false /\ finalFlushes s = 0%nat /\ n = 0)
      \/ (flushLoop s = Running /\ launched s = 1%nat
          /\ EventRecorder.startOnce (recorder s) = true /\ finalFlushes s = 0%nat /\ 1 <= n)
      \/ (flushLoop s = Returned /\ launched s = 1%nat
          /\ EventRecorder.startOnce (recorder s) = true /\ finalFlushes s = 1%nat /\ 1 <= n)).

(** The options that the package provides. *)
Inductive provided : Option -> Prop :=
| provided_TogglesUri (uri : string) : provided (WithTogglesUri uri)
| provided_EventsUri (uri : string) : provided (WithEventsUri uri)
| provided_RefreshInterval (interval : Z) : provided (WithRefreshInterval interval)
| provided_WaitFirstResp (wait : bool) : provided (WithWaitFirstResp wait).

(** One call of an accessor: which one, the reading of the clock, the
    toggle key and the user. *)
Record invocation : Type := Invocation {
  inv_call : accessor;
  inv_nanos : Z;
  inv_toggle : string;
  inv_user : FPUser.t
}.

(** Calls one after the other on the same client. *)
Definition runCalls (evalDetail : evaluator) (fp : FeatureProbe.t) (calls : list invocation)
  : FeatureProbe.t :=
  fold_left (fun fp i => clientAfter evalDetail (inv_call i) fp (inv_nanos i) (inv_toggle i)
                           (inv_user i)) calls fp.

(** The event that a call leaves in the recorder, if any. *)
Definition eventsOf (evalDetail : evaluator) (fp : FeatureProbe.t) (i : invocation)
  : list AccessEvent.t :=
  match resolved evalDetail fp (inv_toggle i) (inv_user i) with
  | Some (detail, err) =>
      [AccessEvent.mk (Z.quot (inv_nanos i) 1000000) (inv_toggle i)
         (match err with None => EvalDetail.Value detail | Some _ => defaultOf (inv_call i) end)
         (EvalDetail.VariationIndex detail) (EvalDetail.Version detail)
         (EvalDetail.Reason detail)]
  | None => []
  end.

(** The toggle "overflow_bool_toggle" of TestOutOfIndexToggle, in a client
    with a recorder. *)
Definition overflowClient : FeatureProbe.t :=
  FeatureProbe.mk zeroConfig
    (Some (Repository.mk
             {[ "overflow_bool_toggle" :=
                  Toggle.mk "overflow_bool_toggle" true (Serve.mk (Some 2) None)
                    (Serve.mk (Some 2) None) 1 false [VBool true; VBool false] [] ]} ∅))
    (Some (NewEventRecorder "http://collector/api/events" 2000 "key")).

(** Two events for the toggle "t" around one for the toggle "u". *)
Definition sampleBatch : list AccessEvent.t :=
  [sampleEvent 1;
   AccessEvent.mk 5 "u" (VStr "x") None None "default rule";
   AccessEvent.mk 3 "t" (VBool false) None None "default rule"].

(** What buildAccess makes of [sampleBatch]. *)
Definition sampleAccess : Access.t :=
  match buildAccess PerIteration sampleBatch with
  | Some a => a
  | None => Access.mk 0 0 ∅
  end.

(** The recorder and its loop once Start, Stop and the final flush are
    over and Stop has returned. *)
Definition stoppedSystem : system :=
  System (EventRecorder.mk "key" "http://collector/api/events" 2000 [] [] 0 true true
            ChanClosed (Some 2000000000))
    Returned 1 [NothingPending] 1 0 1.

(** * The flush over every order of the map *)

(** doFlush when [range counters] of buildAccess visits the entries of the
    map in any order, as Go leaves it open: [r] is a recorder afterwards
    and an outcome that a run of doFlush can have.  [doFlush] is the run
    that visits them in the order they were stored. *)
Definition doFlush_any (rv : rangeVar) (parseURL : string -> bool) (e : EventRecorder.t)
    (r : EventRecorder.t * flushOutcome) : Prop :=
  let events := EventRecorder.incomingEvents e in
  let e := EventRecorder.with_incomingEvents e [] in
  if (length events =? 0)%nat then r = (e, NothingPending)
  else
    (buildCounters rv events = None /\ r = (e, NilDereference))
    \/ exists access,
         buildAccess_any rv events access
         /\ r = if parseURL (EventRecorder.eventsUrl e)
                then (e, Posted (mkRequest "POST" (EventRecorder.eventsUrl e)
                                   [("Authorization", EventRecorder.auth e);
                                    ("Content-Type", "application/json");
                                    ("User-Agent", USER_AGENT)]
                                   (Marshal [PackedData.mk events access])))
                else (e, RequestRefused).

(** Whether every byte of the string is below 0x80.  json.Marshal writes
    such a string as a JSON string that reads back as the same string;
    bytes that are not valid UTF-8 it replaces by U+FFFD, which the tree
    of [marshalAccessEvent] does not show. *)
Fixpoint asciiOnly (s : string) : bool :=
  match s with
  | EmptyString => true
  | String (Ascii.Ascii _ _ _ _ _ _ _ b7) rest => negb b7 && asciiOnly rest
  end.

(** What a member of the array "events" tells of the event it stands for:
    its time, the numbers its two pointers point to ([null] for nil), and
    its key and its reason when these are ASCII. *)
Definition encodes (event : AccessEvent.t) (doc : json) : Prop :=
  exists key v reason,
    doc = JObject [("time", JInt (AccessEvent.Time event));
                   ("key", JString key);
                   ("value", v);
                   ("index", marshalPtr (AccessEvent.Index event));
                   ("version", marshalPtr (AccessEvent.Version event));
                   ("reason", JString reason)]
    /\ (asciiOnly (AccessEvent.Key event) = true -> key = AccessEvent.Key event)
    /\ (asciiOnly (AccessEvent.Reason event) = true -> reason = AccessEvent.Reason event).

(** Two events for the toggle "t" that differ in the index pointer: the map
    of buildCounters holds two entries, which buildAccess files under "t"
    in the order in which [range counters] visits them. *)
Definition twoVariations : list AccessEvent.t :=
  [sampleEvent 1;
   AccessEvent.mk 2 "t" (VBool false) (Some (Ptr 1%positive 1)) None "default rule"].

(** The access record of [twoVariations] when the second entry of the map
    is visited first. *)
Definition swappedAccess : Access.t :=
  buildAccessIn
    [(Variation.mk "t" (Some (Ptr 1%positive 1)) None, CountValue.mk 1 (VBool false));
     (Variation.mk "t" None None, CountValue.mk 1 (VBool true))]
    2 1.

(** A new recorder, and the request that posts [twoVariations] with
    [swappedAccess] from it. *)
Definition newRecorder : EventRecorder.t :=
  NewEventRecorder "http://collector/api/events" 2000 "key".

Definition swappedRequest : Request :=
  mkRequest "POST" "http://collector/api/events"
    [("Authorization", "key");
     ("Content-Type", "application/json");
     ("User-Agent", "Go/1.1.0")]
    (Marshal [PackedData.mk twoVariations swappedAccess]).

(** * Aggregation: what buildCounters computes *)

Section Aggregation.

Variable rv : rangeVar.

Lemma countEvent_pointers_set (st : countState) (event : AccessEvent.t) :
  is_Some (startTime (countEvent rv st event)) /\ is_Some (endTime (countEvent rv st event)).
Proof.
  unfold countEvent.
  destruct (bindEvent rv (timeCells st) (AccessEvent.Time event)) as [here cells].
  cbn. split.
  - destruct (startTime st) as [p|]; [destruct (_ <? _)|]; eauto.
  - destruct (endTime st) as [p|]; [destruct (_ >? _)|]; eauto.
Qed.

Lemma fold_countEvent_pointers_set (events : list AccessEvent.t) (st : countState) :
  is_Some (startTime st) -> is_Some (endTime st) ->
  is_Some (startTime (fold_left (countEvent rv) events st))
  /\ is_Some (endTime (fold_left (countEvent rv) events st)).
Proof.
  revert st. induction events as [|event events IH]; intros st Hs He; cbn.
  - auto.
  - destruct (countEvent_pointers_set st event). apply IH; assumption.
Qed.

(** buildCounters returns on every batch that is not empty. *)
Lemma buildCounters_returns (event : AccessEvent.t) (events : list AccessEvent.t) :
  exists cs s e,
    buildCounters rv (event :: events) = Some (cs, s, e)
    /\ cs = counters (fold_left (countEvent rv) (event :: events) (CountState None None [] [])).
Proof.
  unfold buildCounters. cbn [fold_left].
  destruct (countEvent_pointers_set (CountState None None [] []) event) as [Hs He].
  destruct (fold_countEvent_pointers_set events _ Hs He) as [[s ->] [e ->]].
  eauto.
Qed.

(** The counters of a state: an event changes them only when its key is
    new, and then adds an entry whose count is 1. *)
Lemma countEvent_counters (st : countState) (event : AccessEvent.t) :
  counters (countEvent rv st event) =
    match counterMap_get (counters st) (variationOf event) with
    | None => counters st ++ [(variationOf event, CountValue.mk 1 (AccessEvent.Value event))]
    | Some _ => counters st
    end.
Proof.
  unfold countEvent.
  destruct (bindEvent rv (timeCells st) (AccessEvent.Time event)) as [here cells].
  cbn. fold (variationOf event).
  destruct (counterMap_get (counters st) (variationOf event)); reflexivity.
Qed.

Lemma fold_countEvent_fresh_counts (events seen : list AccessEvent.t) (st : countState) :
  fresh_counts seen (counters st) ->
  fresh_counts (seen ++ events) (counters (fold_left (countEvent rv) events st)).
Proof.
  revert seen st. induction events as [|event events IH]; intros seen st Hst; cbn.
  - rewrite app_nil_r. exact Hst.
  - replace (seen ++ event :: events) with ((seen ++ [event]) ++ events)
      by (rewrite <- app_assoc; reflexivity).
    apply IH. rewrite countEvent_counters.
    assert (Hmono : fresh_counts (seen ++ [event]) (counters st)).
    { eapply Forall_impl; [exact Hst|]. intros kc (ev & Hin & Hk & Hc).
      exists ev. split; [|auto]. apply elem_of_app. auto. }
    destruct (counterMap_get (counters st) (variationOf event)); [exact Hmono|].
    apply Forall_app. split; [exact Hmono|].
    constructor; [|constructor]. exists event. split; [|auto].
    apply elem_of_app. right. apply list_elem_of_singleton. reflexivity.
Qed.

Lemma buildCounters_fresh_counts (events : list AccessEvent.t) cs s e :
  buildCounters rv events = Some (cs, s, e) -> fresh_counts events cs.
Proof.
  unfold buildCounters. cbv zeta. intros H.
  destruct (startTime _); [|discriminate].
  destruct (endTime _); [|discriminate].
  injection H as <- _ _.
  apply (fold_countEvent_fresh_counts events [] (CountState None None [] [])).
  constructor.
Qed.

(** A batch of events that all have the key of the first one leaves one
    entry, with count 1. *)
Lemma fold_countEvent_same_key (events : list AccessEvent.t) (st : countState)
    (k : Variation.t) (c : CountValue.t) :
  counters st = [(k, c)] ->
  Forall (fun event => Variation.eqb k (variationOf event) = true) events ->
  counters (fold_left (countEvent rv) events st) = [(k, c)].
Proof.
  revert st. induction events as [|event events IH]; intros st Hst Hall; cbn.
  - exact Hst.
  - inversion Hall as [|? ? Hk Hrest]; subst.
    apply IH; [|exact Hrest].
    rewrite countEvent_counters, Hst. cbn. rewrite Hk. reflexivity.
Qed.

Lemma buildCounters_same_key (event : AccessEvent.t) (events : list AccessEvent.t) :
  Forall (fun event' => Variation.eqb (variationOf event) (variationOf event') = true) events ->
  exists s e,
    buildCounters rv (event :: events)
    = Some ([(variationOf event, CountValue.mk 1 (AccessEvent.Value event))], s, e).
Proof.
  intros Hall.
  destruct (buildCounters_returns event events) as (cs & s & e & Hb & Hcs).
  exists s, e. rewrite Hb. do 3 f_equal. subst cs. cbn [fold_left].
  apply fold_countEvent_same_key; [|exact Hall].
  rewrite countEvent_counters. reflexivity.
Qed.

End Aggregation.

(** * Aggregation: the time window *)

Lemma last_cons_default {A} (l : list A) (a d : A) :
  List.last (a :: l) d = List.last l a.
Proof.
  revert a d. induction l as [|b l IH]; intros a d; [reflexivity|].
  change (List.last (a :: b :: l) d) with (List.last (b :: l) d).
  rewrite (IH b d), (IH b a). reflexivity.
Qed.

Lemma last_map_default {A B} (f : A -> B) (l : list A) (d : A) :
  List.last (map f l) (f d) = f (List.last l d).
Proof.
  induction l as [|a l IH]; [reflexivity|].
  destruct l as [|b l]; [reflexivity|]. exact IH.
Qed.

(** With one loop variable, both pointers end up on it: the window is the
    time of the last event, twice. *)
Lemma fold_countEvent_PerLoop (events : list AccessEvent.t) (st : countState) (t : Z) :
  startTime st = Some 0%nat -> endTime st = Some 0%nat -> timeCells st = [t] ->
  let st' := fold_left (countEvent PerLoop) events st in
  startTime st' = Some 0%nat /\ endTime st' = Some 0%nat
  /\ timeCells st' = [List.last (map AccessEvent.Time events) t].
Proof.
  revert st t. induction events as [|event events IH]; intros st t Hs He Hc.
  - cbn. auto.
  - cbn [fold_left].
    destruct (IH (countEvent PerLoop st event) (AccessEvent.Time event)) as (Hs' & He' & Hc').
    + unfold countEvent. cbn. rewrite Hs. unfold load. cbn.
      rewrite Z.ltb_irrefl. reflexivity.
    + unfold countEvent. cbn. rewrite He. unfold load. cbn.
      rewrite Z.gtb_ltb, Z.ltb_irrefl. reflexivity.
    + reflexivity.
    + cbv zeta. repeat split; [exact Hs'|exact He'|].
      rewrite Hc'. f_equal. cbn [map]. symmetry. apply last_cons_default.
Qed.

Lemma buildCounters_PerLoop (event : AccessEvent.t) (events : list AccessEvent.t) :
  exists cs,
    buildCounters PerLoop (event :: events)
    = Some (cs, AccessEvent.Time (List.last events event),
                AccessEvent.Time (List.last events event)).
Proof.
  unfold buildCounters. cbn [fold_left].
  destruct (fold_countEvent_PerLoop events
              (countEvent PerLoop (CountState None None [] []) event)
              (AccessEvent.Time event)) as (Hs & He & Hc); try reflexivity.
  cbv zeta in *. rewrite Hs, He, Hc. eexists. unfold load. cbn.
  rewrite last_map_default. reflexivity.
Qed.

Lemma load_app_l (cells : list Z) (t : Z) (p : nat) (x : Z) :
  cells !! p = Some x -> load (cells ++ [t]) p = x.
Proof.
  intros H. unfold load. rewrite lookup_app_l.
  - rewrite H. reflexivity.
  - eapply lookup_lt_Some. exact H.
Qed.

Lemma load_app_here (cells : list Z) (t : Z) : load (cells ++ [t]) (length cells) = t.
Proof.
  unfold load. rewrite lookup_app_r by lia.
  rewrite Nat.sub_diag. reflexivity.
Qed.

(** With a loop variable per iteration, [startTime] follows the greatest
    time and [endTime] the least. *)
Lemma fold_countEvent_PerIteration (events : list AccessEvent.t) (st : countState)
    (x : Z) (l : list Z) (p q : nat) :
  timeCells st = x :: l ->
  startTime st = Some p -> (x :: l) !! p = Some (maximum x l) ->
  endTime st = Some q -> (x :: l) !! q = Some (minimum x l) ->
  let st' := fold_left (countEvent PerIteration) events st in
  let l' := l ++ map AccessEvent.Time events in
  timeCells st' = x :: l'
  /\ (exists p', startTime st' = Some p' /\ (x :: l') !! p' = Some (maximum x l'))
  /\ (exists q', endTime st' = Some q' /\ (x :: l') !! q' = Some (minimum x l')).
Proof.
  revert st l p q. induction events as [|event events IH]; intros st l p q Hc Hs Hp He Hq.
  - cbn. rewrite app_nil_r. eauto 10.
  - cbn [fold_left map]. cbv zeta.
    replace (l ++ AccessEvent.Time event :: map AccessEvent.Time events)
      with ((l ++ [AccessEvent.Time event]) ++ map AccessEvent.Time events)
      by (rewrite <- app_assoc; reflexivity).
    set (t := AccessEvent.Time event).
    assert (Hcells : timeCells (countEvent PerIteration st event) = x :: (l ++ [t])).
    { unfold countEvent. cbn. rewrite Hc. reflexivity. }
    assert (Hmax : maximum x (l ++ [t]) = Z.max (maximum x l) t).
    { unfold maximum. rewrite fold_left_app. reflexivity. }
    assert (Hmin : minimum x (l ++ [t]) = Z.min (minimum x l) t).
    { unfold minimum. rewrite fold_left_app. reflexivity. }
    assert (Hstart : exists p', startTime (countEvent PerIteration st event) = Some p'
                      /\ (x :: l ++ [t]) !! p' = Some (maximum x (l ++ [t]))).
    { unfold countEvent. cbn. rewrite Hs, Hc. fold t.
      rewrite (load_app_l (x :: l) t p _ Hp). rewrite Hmax.
      destruct (Z.ltb_spec (maximum x l) t) as [Hlt|Hge].
      - exists (length (x :: l)). split; [reflexivity|].
        change (x :: l ++ [t]) with ((x :: l) ++ [t]).
        rewrite lookup_app_r by lia. rewrite Nat.sub_diag. cbn. f_equal. lia.
      - exists p. split; [reflexivity|].
        change (x :: l ++ [t]) with ((x :: l) ++ [t]).
        rewrite lookup_app_l by (eapply lookup_lt_Some; exact Hp).
        rewrite Hp. f_equal. lia. }
    assert (Hend : exists q', endTime (countEvent PerIteration st event) = Some q'
                    /\ (x :: l ++ [t]) !! q' = Some (minimum x (l ++ [t]))).
    { unfold countEvent. cbn. rewrite He, Hc. fold t.
      rewrite (load_app_l (x :: l) t q _ Hq). rewrite Hmin, Z.gtb_ltb.
      destruct (Z.ltb_spec t (minimum x l)) as [Hlt|Hge].
      - exists (length (x :: l)). split; [reflexivity|].
        change (x :: l ++ [t]) with ((x :: l) ++ [t]).
        rewrite lookup_app_r by lia. rewrite Nat.sub_diag. cbn. f_equal. lia.
      - exists q. split; [reflexivity|].
        change (x :: l ++ [t]) with ((x :: l) ++ [t]).
        rewrite lookup_app_l by (eapply lookup_lt_Some; exact Hq).
        rewrite Hq. f_equal. lia. }
    destruct Hstart as (p' & Hs' & Hp'). destruct Hend as (q' & He' & Hq').
    exact (IH _ _ p' q' Hcells Hs' Hp' He' Hq').
Qed.

Lemma buildCounters_PerIteration (event : AccessEvent.t) (events : list AccessEvent.t) :
  exists cs,
    buildCounters PerIteration (event :: events)
    = Some (cs, maximum (AccessEvent.Time event) (map AccessEvent.Time events),
                minimum (AccessEvent.Time event) (map AccessEvent.Time events)).
Proof.
  unfold buildCounters. cbn [fold_left].
  destruct (fold_countEvent_PerIteration events
              (countEvent PerIteration (CountState None None [] []) event)
              (AccessEvent.Time event) [] 0 0) as (Hc & (p & Hs & Hp) & (q & He & Hq));
    try reflexivity.
  cbv zeta in *. cbn [app] in *. rewrite Hs, He, Hc. eexists. unfold load.
  rewrite Hp, Hq. reflexivity.
Qed.

(** * Aggregation: what buildAccess files *)

Lemma fold_addCounter_entries (order seen : counterMap)
    (acc : gmap string (list ToggleCounter.t)) :
  filed_from seen acc -> filed_from (seen ++ order) (fold_left addCounter order acc).
Proof.
  revert seen acc. induction order as [|[k v] order IH]; intros seen acc Hacc; cbn [fold_left].
  - rewrite app_nil_r. exact Hacc.
  - replace (seen ++ (k, v) :: order) with ((seen ++ [(k, v)]) ++ order)
      by (rewrite <- app_assoc; reflexivity).
    apply IH. clear IH. intros key cs c Hlook Hin.
    assert (Hold : forall cs0, acc !! key = Some cs0 -> c ∈ cs0 ->
              exists kc, kc ∈ seen ++ [(k, v)] /\ c = counterOf kc /\ key = Variation.Key (fst kc)).
    { intros cs0 H0 Hc. destruct (Hacc key cs0 c H0 Hc) as (kc & Hkc & Heq).
      exists kc. split; [apply elem_of_app; auto|exact Heq]. }
    assert (Hnew : exists kc, kc ∈ seen ++ [(k, v)] /\ counterOf (k, v) = counterOf kc
                     /\ Variation.Key k = Variation.Key (fst kc)).
    { exists (k, v). split; [|auto]. apply elem_of_app. right.
      apply list_elem_of_singleton. reflexivity. }
    unfold addCounter in Hlook.
    destruct (decide (Variation.Key k = key)) as [<-|Hne].
    + destruct (acc !! Variation.Key k) as [cs0|] eqn:Hk;
        rewrite lookup_insert_eq in Hlook; injection Hlook as <-.
      * apply elem_of_app in Hin as [Hin|Hin]; [eauto|].
        apply list_elem_of_singleton in Hin. subst c. exact Hnew.
      * apply list_elem_of_singleton in Hin. subst c. exact Hnew.
    + destruct (acc !! Variation.Key k) as [cs0|] eqn:Hk;
        rewrite lookup_insert_ne in Hlook by exact Hne; eauto.
Qed.

Lemma buildAccessIn_entries (order : counterMap) (s e : Z) :
  filed_from order (Access.Counters (buildAccessIn order s e)).
Proof.
  apply (fold_addCounter_entries order [] ∅).
  intros key cs c H. rewrite lookup_empty in H. discriminate.
Qed.

(** Whatever the batch and whatever the order of [range counters], every
    counter that is filed has count 1 and the value of one of the events. *)
Lemma buildAccess_any_counts_one (rv : rangeVar) (events : list AccessEvent.t)
    (a : Access.t) (key : string) (cs : list ToggleCounter.t) (c : ToggleCounter.t) :
  buildAccess_any rv events a -> Access.Counters a !! key = Some cs -> c ∈ cs ->
  ToggleCounter.Count c = 1
  /\ exists event, event ∈ events /\ AccessEvent.Key event = key
       /\ ToggleCounter.Value c = AccessEvent.Value event.
Proof.
  intros (counters & s & e & order & Hb & Hperm & ->) Hlook Hin.
  destruct (buildAccessIn_entries order s e key cs c Hlook Hin) as (kc & Hkc & -> & ->).
  apply buildCounters_fresh_counts in Hb.
  rewrite Hperm in Hkc.
  unfold fresh_counts in Hb. rewrite Forall_forall in Hb. destruct (Hb kc Hkc) as (event & Hev & Hk & Hc).
  destruct kc as [k v]. cbn in *. subst k v. cbn. eauto.
Qed.

Lemma buildAccess_is_any (rv : rangeVar) (events : list AccessEvent.t) (a : Access.t) :
  buildAccess rv events = Some a -> buildAccess_any rv events a.
Proof.
  unfold buildAccess. destruct (buildCounters rv events) as [[[cs s] e]|] eqn:Hb; [|discriminate].
  intros [= <-]. exists cs, s, e, cs. auto.
Qed.

(** C1 (what the code does): a batch of events that all carry the key, the
    index pointer and the version pointer of its first event is filed as
    one counter under that toggle key, with the value of the first event,
    and the count of that counter is 1, however many events the batch has. *)
Theorem same_key_batch_counts_one (rv : rangeVar) (event : AccessEvent.t)
    (events : list AccessEvent.t) :
  Forall (fun event' => Variation.eqb (variationOf event) (variationOf event') = true) events ->
  exists s e,
    buildAccess rv (event :: events)
    = Some (Access.mk s e
              {[ AccessEvent.Key event :=
                   [ToggleCounter.mk (AccessEvent.Value event) (AccessEvent.Version event)
                      (AccessEvent.Index event) 1] ]}).
Proof.
  intros Hall. destruct (buildCounters_same_key rv event events Hall) as (s & e & Hb).
  exists s, e. unfold buildAccess. rewrite Hb. unfold buildAccessIn. cbn.
  rewrite lookup_empty, insert_empty. reflexivity.
Qed.

(** Three events for the toggle "t" leave one counter, with count 1. *)
Lemma same_key_batch_counts_one_witness :
  exists s e,
    buildAccess PerLoop
      [sampleEvent 1; sampleEvent 2; sampleEvent 3]
    = Some (Access.mk s e {[ "t" := [ToggleCounter.mk (VBool true) None None 1] ]}).
Proof.
  apply (same_key_batch_counts_one PerLoop
           (sampleEvent 1) [sampleEvent 2; sampleEvent 3]).
  repeat constructor.
Defined.

(** The window of a batch, in general: the greatest time as StartTime and
    the least as EndTime when each iteration has its own loop variable, the
    time of the last event for both when the loop has one variable. *)
Lemma buildAccess_window (rv : rangeVar) (event : AccessEvent.t) (events : list AccessEvent.t) :
  exists a,
    buildAccess rv (event :: events) = Some a
    /\ match rv with
       | PerIteration =>
           Access.StartTime a = maximum (AccessEvent.Time event) (map AccessEvent.Time events)
           /\ Access.EndTime a = minimum (AccessEvent.Time event) (map AccessEvent.Time events)
       | PerLoop =>
           Access.StartTime a = AccessEvent.Time (List.last events event)
           /\ Access.EndTime a = AccessEvent.Time (List.last events event)
       end.
Proof.
  unfold buildAccess. destruct rv.
  - destruct (buildCounters_PerLoop event events) as (cs & ->). eexists. split; [reflexivity|].
    cbn. auto.
  - destruct (buildCounters_PerIteration event events) as (cs & ->). eexists. split; [reflexivity|].
    cbn. auto.
Qed.

(** C3 (what the code does): for the batch of two events with times 1 and
    2, in this order, StartTime is 2, not the least time 1; EndTime is the
    least time 1 when each iteration has its own loop variable, and 2 when
    the loop has one variable. *)
Theorem window_of_two_events (rv : rangeVar) :
  exists a,
    buildAccess rv [sampleEvent 1; sampleEvent 2] = Some a
    /\ Access.StartTime a = 2
    /\ Access.EndTime a = match rv with PerIteration => 1 | PerLoop => 2 end.
Proof.
  destruct rv; eexists; (split; [reflexivity|]); cbn; auto.
Qed.

(** * The telemetry document *)

Lemma marshalAccessEvent_encodable (event : AccessEvent.t) :
  encodable (AccessEvent.Value event) = true -> is_Some (marshalAccessEvent event).
Proof.
  unfold encodable, marshalAccessEvent.
  destruct (marshalValue (AccessEvent.Value event)); [cbn; eauto|discriminate].
Qed.

Lemma marshalToggleCounter_encodable (c : ToggleCounter.t) :
  encodable (ToggleCounter.Value c) = true -> is_Some (marshalToggleCounter c).
Proof.
  unfold encodable, marshalToggleCounter.
  destruct (marshalValue (ToggleCounter.Value c)); [cbn; eauto|discriminate].
Qed.

Lemma marshalCounters_encodable (m : gmap string (list ToggleCounter.t)) :
  (forall key cs c, m !! key = Some cs -> c ∈ cs -> encodable (ToggleCounter.Value c) = true) ->
  is_Some (marshalCounters m).
Proof.
  intros Hm. unfold marshalCounters. apply fmap_is_Some, mapM_is_Some, Forall_forall.
  intros [key cs] Hin. apply elem_of_map_to_list in Hin. cbn.
  apply fmap_is_Some, mapM_is_Some, Forall_forall.
  intros c Hc. apply marshalToggleCounter_encodable. eauto.
Qed.

(** A slice of one PackedData becomes an array of one document. *)
Lemma Marshal_one (p : PackedData.t) :
  Marshal [p] = (fun doc => JArray [doc]) <$> marshalPackedData p.
Proof.
  unfold Marshal. cbn. destruct (marshalPackedData p); reflexivity.
Qed.

(** A batch whose values can all be encoded is marshalled as an array
    with one element, the object of the events and the access record. *)
Lemma Marshal_batch (rv : rangeVar) (event : AccessEvent.t) (events : list AccessEvent.t) :
  forallb (fun ev => encodable (AccessEvent.Value ev)) (event :: events) = true ->
  exists p evs acc,
    buildPackedData rv (event :: events) = Some [p]
    /\ length evs = length (event :: events)
    /\ Marshal [p] = Some (JArray [JObject [("events", JArray evs); ("access", acc)]]).
Proof.
  intros Henc. rewrite forallb_forall in Henc.
  destruct (buildAccess_window rv event events) as (a & Ha & _).
  unfold buildPackedData. rewrite Ha.
  destruct (mapM_is_Some marshalAccessEvent (event :: events)) as [_ Hevs].
  destruct Hevs as [evs Hevs].
  { apply Forall_forall. intros ev Hin. apply marshalAccessEvent_encodable, Henc.
    apply list_elem_of_In. exact Hin. }
  destruct (marshalCounters_encodable (Access.Counters a)) as [cs Hcs].
  { intros key l c Hl Hc.
    destruct (buildAccess_any_counts_one rv (event :: events) a key l c
                (buildAccess_is_any _ _ _ Ha) Hl Hc) as (_ & ev & Hin & _ & ->).
    apply Henc, list_elem_of_In. exact Hin. }
  eexists _, evs, _. split; [reflexivity|]. split.
  - symmetry. eapply length_mapM. exact Hevs.
  - rewrite Marshal_one. unfold marshalPackedData, marshalAccess.
    cbn [PackedData.Events PackedData.Access]. rewrite Hevs, Hcs. reflexivity.
Qed.

(** A value that cannot be encoded makes json.Marshal fail. *)
Lemma Marshal_batch_fails (rv : rangeVar) (events : list AccessEvent.t)
    (packedData : list PackedData.t) :
  forallb (fun ev => encodable (AccessEvent.Value ev)) events = false ->
  buildPackedData rv events = Some packedData -> Marshal packedData = None.
Proof.
  intros Henc. unfold buildPackedData.
  destruct (buildAccess rv events) as [a|]; [|discriminate]. intros [= <-].
  assert (Hevs : mapM marshalAccessEvent events = None).
  { apply mapM_None, Exists_exists.
    apply not_true_iff_false in Henc. rewrite forallb_forall in Henc.
    destruct (forallb (fun ev => encodable (AccessEvent.Value ev)) events) eqn:Hall.
    - exfalso. apply Henc. rewrite forallb_forall in Hall. exact Hall.
    - clear Henc. induction events as [|ev events IH]; [discriminate|].
      cbn in Hall. apply andb_false_iff in Hall as [Hev|Hrest].
      + exists ev. split; [left|].
        unfold marshalAccessEvent, encodable in *.
        destruct (marshalValue (AccessEvent.Value ev)); [discriminate|reflexivity].
      + destruct (IH Hrest) as (ev' & Hin & Hnone). exists ev'. split; [right; exact Hin|exact Hnone]. }
  rewrite Marshal_one. unfold marshalPackedData. cbn [PackedData.Events].
  rewrite Hevs. reflexivity.
Qed.

(** doFlush never runs into the nil dereference of buildCounters. *)
Lemma doFlush_no_nil_dereference (rv : rangeVar) (parseURL : string -> bool)
    (e : EventRecorder.t) :
  snd (doFlush rv parseURL e) <> NilDereference.
Proof.
  unfold doFlush. destruct (EventRecorder.incomingEvents e) as [|event events]; [cbn; discriminate|].
  cbn [length Nat.eqb].
  destruct (buildAccess_window rv event events) as (a & Ha & _).
  unfold buildPackedData. rewrite Ha. cbn.
  destruct (parseURL _); cbn; discriminate.
Qed.

(** C4 (amended): the body of every request that doFlush posts is a JSON
    array with exactly one element, that element being an object with the
    two members events and access, when json.Marshal can encode the value
    of every event of the batch; otherwise the body is empty.  It is never
    the object itself. *)
Theorem telemetry_body_is_array_of_one (rv : rangeVar) (parseURL : string -> bool)
    (e : EventRecorder.t) (req : Request) :
  snd (doFlush rv parseURL e) = Posted req ->
  if forallb (fun ev => encodable (AccessEvent.Value ev)) (EventRecorder.incomingEvents e)
  then exists evs acc,
         length evs = length (EventRecorder.incomingEvents e)
         /\ Body req = Some (JArray [JObject [("events", JArray evs); ("access", acc)]])
  else Body req = None.
Proof.
  unfold doFlush. destruct (EventRecorder.incomingEvents e) as [|event events] eqn:He;
    [cbn; discriminate|].
  cbn [length Nat.eqb].
  destruct (forallb _ (event :: events)) eqn:Henc.
  - destruct (Marshal_batch rv event events Henc) as (p & evs & acc & Hp & Hlen & Hm).
    rewrite Hp. cbn. destruct (parseURL _); cbn; [|discriminate].
    intros [= <-]. cbn. exists evs, acc. split; [exact Hlen|exact Hm].
  - destruct (buildPackedData rv (event :: events)) as [packedData|] eqn:Hp; [|cbn; discriminate].
    cbn. destruct (parseURL _); cbn; [|discriminate].
    intros [= <-]. cbn. eapply Marshal_batch_fails; eassumption.
Qed.

(** The request that a recorder with one event posts. *)
Lemma telemetry_body_is_array_of_one_witness :
  snd (doFlush PerLoop (fun _ => true) sampleRecorder) = Posted sampleRequest
  /\ exists evs acc,
       length evs = 1%nat
       /\ Body sampleRequest = Some (JArray [JObject [("events", JArray evs); ("access", acc)]]).
Proof.
  split; [reflexivity|].
  exact (telemetry_body_is_array_of_one PerLoop (fun _ => true) sampleRecorder sampleRequest
           eq_refl).
Defined.

(** C4 (as stated, refuted): the body posted for a batch of one event is
    not an object with the members events and access; it is an array. *)
Lemma telemetry_body_is_not_the_object :
  (exists req items,
     snd (doFlush PerLoop (fun _ => true) sampleRecorder) = Posted req
     /\ Body req = Some (JArray items)
     /\ ~ telemetryObject (JArray items))
  /\ (exists req items,
        snd (doFlush PerIteration (fun _ => true) sampleRecorder) = Posted req
        /\ Body req = Some (JArray items)
        /\ ~ telemetryObject (JArray items)).
Proof.
  split; eexists _, _; (split; [reflexivity|]); (split; [reflexivity|]);
    intros (events & access & H); discriminate H.
Qed.

(** * The life cycle of the recorder *)

Section LifeCycle.

Variable rv : rangeVar.
Variable parseURL : string -> bool.

Lemma doFlush_recorder (e : EventRecorder.t) :
  fst (doFlush rv parseURL e) = EventRecorder.with_incomingEvents e [].
Proof.
  unfold doFlush. destruct (length _ =? 0)%nat; [reflexivity|].
  destruct (buildPackedData _ _); [|reflexivity].
  destruct (parseURL _); reflexivity.
Qed.

Lemma run_app (s : system) (t1 t2 : list action) :
  run rv parseURL s (t1 ++ t2)
  = match run rv parseURL s t1 with
    | Some s' => run rv parseURL s' t2
    | None => None
    end.
Proof.
  revert s. induction t1 as [|a t1 IH]; intros s; cbn; [reflexivity|].
  destruct (step rv parseURL s a); [apply IH|reflexivity].
Qed.

(** Start is a no-op on the flush loop once it has run: further calls
    launch nothing, and each adds one to the WaitGroup. *)
Lemma run_more_starts (k : nat) (s : system) :
  EventRecorder.startOnce (recorder s) = true ->
  exists s',
    run rv parseURL s (replicate k CallStart) = Some s'
    /\ EventRecorder.wg (recorder s') = EventRecorder.wg (recorder s) + Z.of_nat k
    /\ EventRecorder.startOnce (recorder s') = true
    /\ EventRecorder.incomingEvents (recorder s') = EventRecorder.incomingEvents (recorder s)
    /\ flushLoop s' = flushLoop s /\ launched s' = launched s
    /\ finalFlushes s' = finalFlushes s /\ stopped s' = stopped s.
Proof.
  revert s. induction k as [|k IH]; intros s Hs.
  - exists s. cbn. rewrite Z.add_0_r. auto 10.
  - cbn [replicate run]. unfold step, Start. cbn. rewrite Hs.
    edestruct IH as (s' & Hrun & Hwg & Hso & Hin & Hl & Hla & Hf & Hst);
      [|exists s'; split; [exact Hrun|]].
    + exact Hs.
    + cbn in *. rewrite Hwg. repeat split; auto. lia.
Qed.

(** The first Start launches the flush loop, when the period is positive. *)
Lemma run_first_start (url auth : string) (interval : Z) (s : system) :
  step rv parseURL (boot (NewEventRecorder url interval auth)) CallStart = Some s ->
  EventRecorder.startOnce (recorder s) = true
  /\ EventRecorder.wg (recorder s) = 1
  /\ flushLoop s = Running /\ launched s = 1%nat
  /\ finalFlushes s = 0%nat /\ stopped s = 0%nat.
Proof.
  unfold step, Start. cbn. destruct (_ <=? 0); [discriminate|].
  intros [= <-]. cbn. auto 10.
Qed.

Lemma step_overcounted (s s' : system) (a : action) :
  overcounted s -> step rv parseURL s a = Some s' -> overcounted s'.
Proof.
  unfold overcounted. intros (Hso & Hla & Hst & Hwg) Hstep.
  destruct a; cbn in Hstep.
  - unfold Start in Hstep. cbn in Hstep. rewrite Hso in Hstep.
    injection Hstep as <-. cbn. repeat split; auto.
    destruct Hwg as [(? & ? & ?)|(? & ? & ?)]; [left|right]; repeat split; auto; lia.
  - injection Hstep as <-. cbn. auto.
  - injection Hstep as <-. cbn.
    assert (Hsame : forall e, EventRecorder.wg (StopSignal e) = EventRecorder.wg e
                               /\ EventRecorder.startOnce (StopSignal e) = EventRecorder.startOnce e).
    { intros e. unfold StopSignal. destruct (EventRecorder.stopChan e);
        try destruct (EventRecorder.stopOnce e); auto. }
    destruct (Hsame (recorder s)) as [-> ->]. auto.
  - destruct (waiting s); [discriminate|].
    destruct (Z.eqb_spec (EventRecorder.wg (recorder s)) 0) as [Hz|]; [|discriminate].
    exfalso. destruct Hwg as [(? & ? & ?)|(? & ? & ?)]; lia.
  - destruct (flushLoop s) eqn:Hl; try discriminate.
    pose proof (doFlush_recorder (recorder s)) as Hf.
    destruct (doFlush rv parseURL (recorder s)) as [e o]. cbn in Hf. subst e.
    injection Hstep as <-. cbn.
    destruct Hwg as [(? & ? & ?)|(? & ? & ?)]; [|discriminate]. auto 10.
  - destruct (flushLoop s) eqn:Hl; try discriminate.
    destruct (EventRecorder.stopChan (recorder s)); try discriminate.
    pose proof (doFlush_recorder (recorder s)) as Hf.
    destruct (doFlush rv parseURL (recorder s)) as [e o]. cbn in Hf. subst e.
    injection Hstep as <-. cbn.
    destruct Hwg as [(? & ? & ?)|(? & ? & ?)]; [|discriminate].
    repeat split; auto. right. repeat split; auto; lia.
Qed.

Lemma run_overcounted (trace : list action) (s s' : system) :
  overcounted s -> run rv parseURL s trace = Some s' -> overcounted s'.
Proof.
  revert s. induction trace as [|a trace IH]; intros s Hs; cbn.
  - intros [= <-]. exact Hs.
  - destruct (step rv parseURL s a) as [s1|] eqn:Hstep; [|discriminate].
    apply IH. eapply step_overcounted; eassumption.
Qed.

(** C5 (what the code does): on a new recorder, two or more calls of Start
    launch one flush loop, and after them no call of Stop ever returns,
    whatever happens next: the WaitGroup was raised by every Start and is
    lowered once, by the one flush loop after its final flush. *)
Theorem Stop_after_repeated_Start_never_returns (url auth : string) (interval : Z)
    (n : nat) (trace : list action) (s : system) :
  run rv parseURL (boot (NewEventRecorder url interval auth))
    (replicate (S (S n)) CallStart ++ CallStop :: trace) = Some s ->
  launched s = 1%nat /\ stopped s = 0%nat /\ (finalFlushes s <= 1)%nat
  /\ 1 <= EventRecorder.wg (recorder s).
Proof.
  rewrite run_app. cbn [replicate run].
  destruct (step rv parseURL (boot (NewEventRecorder url interval auth)) CallStart)
    as [s1|] eqn:H1; [|discriminate].
  destruct (run_first_start _ _ _ _ H1) as (Hso & Hwg & Hl & Hla & Hf & Hst).
  destruct (run_more_starts (S n) s1 Hso)
    as (s2 & Hrun & Hwg2 & Hso2 & _ & Hl2 & Hla2 & Hf2 & Hst2).
  cbn [replicate run] in Hrun. rewrite Hrun.
  intros Hrest.
  assert (Hover : overcounted s2).
  { unfold overcounted. repeat split; try congruence.
    left. repeat split; try congruence. lia. }
  apply (run_overcounted (CallStop :: trace) s2 s Hover) in Hrest.
  destruct Hrest as (_ & ? & ? & [(? & ? & ?)|(? & ? & ?)]); repeat split; auto; lia.
Qed.

Lemma step_counted (s s' : system) (a : action) :
  a <> CallStart -> counted s -> step rv parseURL s a = Some s' -> counted s'.
Proof.
  unfold counted. intros Ha (Hla & Hwg) Hstep.
  destruct a; cbn in Hstep; try congruence.
  - injection Hstep as <-. cbn. auto.
  - injection Hstep as <-. cbn.
    assert (Hsame : forall e, EventRecorder.wg (StopSignal e) = EventRecorder.wg e).
    { intros e. unfold StopSignal. destruct (EventRecorder.stopChan e);
        try destruct (EventRecorder.stopOnce e); auto. }
    rewrite Hsame. auto.
  - destruct (waiting s); [discriminate|].
    destruct (Z.eqb_spec (EventRecorder.wg (recorder s)) 0) as [Hz|]; [|discriminate].
    injection Hstep as <-. cbn. split; [exact Hla|].
    destruct Hwg as [(? & ? & ?)|(? & ? & ?)]; [lia|auto].
  - destruct (flushLoop s) eqn:Hl; try discriminate.
    pose proof (doFlush_recorder (recorder s)) as Hf.
    destruct (doFlush rv parseURL (recorder s)) as [e o]. cbn in Hf. subst e.
    injection Hstep as <-. cbn.
    destruct Hwg as [(? & ? & ? & ?)|(? & ? & ?)]; [|discriminate]. auto 10.
  - destruct (flushLoop s) eqn:Hl; try discriminate.
    destruct (EventRecorder.stopChan (recorder s)); try discriminate.
    pose proof (doFlush_recorder (recorder s)) as Hf.
    destruct (doFlush rv parseURL (recorder s)) as [e o]. cbn in Hf. subst e.
    injection Hstep as <-. cbn.
    destruct Hwg as [(? & ? & ? & ?)|(? & ? & ?)]; [|discriminate].
    split; [exact Hla|]. right. repeat split; auto; lia.
Qed.

(** After one call of Start, the flush loop flushes for the last time
    exactly once, and a call of Stop returns only after that flush. *)
Lemma Stop_after_one_Start (url auth : string) (interval : Z)
    (trace : list action) (s : system) :
  CallStart ∉ trace ->
  run rv parseURL (boot (NewEventRecorder url interval auth))
    (CallStart :: CallStop :: trace) = Some s ->
  launched s = 1%nat /\ (finalFlushes s <= 1)%nat
  /\ ((0 < stopped s)%nat -> finalFlushes s = 1%nat /\ flushLoop s = Returned).
Proof.
  intros Hno. cbn [run].
  destruct (step rv parseURL (boot (NewEventRecorder url interval auth)) CallStart)
    as [s1|] eqn:H1; [|discriminate].
  destruct (run_first_start _ _ _ _ H1) as (Hso & Hwg & Hl & Hla & Hf & Hst).
  intros Hrun.
  assert (Hc : counted s).
  { assert (Hgen : forall tr s0, CallStart ∉ tr -> counted s0 ->
               run rv parseURL s0 tr = Some s -> counted s).
    { induction tr as [|a tr IH]; intros s0 Hn Hs0; cbn.
      - intros [= <-]. exact Hs0.
      - destruct (step rv parseURL s0 a) as [s'|] eqn:Hstep; [|discriminate].
        apply IH.
        + intros Hin. apply Hn. right. exact Hin.
        + eapply step_counted; [|exact Hs0|exact Hstep].
          intros ->. apply Hn. left. }
    apply (Hgen (CallStop :: trace) s1); [|unfold counted; auto 10|exact Hrun].
    intros Hin. apply elem_of_cons in Hin as [Hin|Hin]; [discriminate|auto]. }
  destruct Hc as (? & [(? & ? & ? & ?)|(? & ? & ?)]); repeat split; auto; lia.
Qed.

End LifeCycle.

(** Two calls of Start, a call of Stop, and the flush loop at work: the
    final flush is done and Stop is still waiting. *)
Lemma Stop_after_repeated_Start_never_returns_witness :
  match
    run PerLoop (fun _ => true) (boot (NewEventRecorder "http://collector/api/events" 2000 "key"))
      [CallStart; CallStart; CallStop; CallRecordAccess (sampleEvent 1); TickCase; StopCase]
  with
  | Some s =>
      launched s = 1%nat /\ stopped s = 0%nat /\ (finalFlushes s <= 1)%nat
      /\ 1 <= EventRecorder.wg (recorder s)
  | None => False
  end.
Proof.
  destruct (run PerLoop (fun _ => true)
              (boot (NewEventRecorder "http://collector/api/events" 2000 "key"))
              [CallStart; CallStart; CallStop; CallRecordAccess (sampleEvent 1); TickCase;
               StopCase]) as [s|] eqn:Hrun.
  - exact (Stop_after_repeated_Start_never_returns PerLoop (fun _ => true)
             "http://collector/api/events" "key" 2000 0
             [CallRecordAccess (sampleEvent 1); TickCase; StopCase] s Hrun).
  - vm_compute in Hrun. discriminate Hrun.
Defined.

(** After a single Start, Stop returns once the final flush is done. *)
Example Stop_after_one_Start_returns :
  (fun s => (stopped s, finalFlushes s, length (flushed s),
             EventRecorder.incomingEvents (recorder s)))
  <$> run PerLoop (fun _ => true)
        (boot (NewEventRecorder "http://collector/api/events" 2000 "key"))
        [CallStart; CallRecordAccess (sampleEvent 1); CallStop; StopCase; StopReturns]
  = Some (1%nat, 1%nat, 1%nat, []).
Proof. vm_compute. reflexivity. Qed.

(** After two calls of Start, Stop cannot return even when the final flush
    is done. *)
Example Stop_after_two_Starts_is_blocked :
  run PerLoop (fun _ => true) (boot (NewEventRecorder "http://collector/api/events" 2000 "key"))
    [CallStart; CallStart; CallStop; StopCase; StopReturns] = None.
Proof. reflexivity. Qed.

(** * The accessors *)

Lemma Contains_append_r (before s substr : string) :
  Contains s substr = true -> Contains (before +:+ s) substr = true.
Proof.
  intros H. induction before as [|a before IH]; [exact H|].
  change (String.prefix substr (String a (before +:+ s)) || Contains (before +:+ s) substr = true).
  rewrite IH. apply orb_true_r.
Qed.

Lemma not_exist_reason (toggle : string) :
  Contains ("Toggle:[" +:+ toggle +:+ "] not exist") "not exist" = true.
Proof.
  do 2 apply Contains_append_r. reflexivity.
Qed.

Section FacadeProperties.

Variable evalDetail : evaluator.

Lemma resolved_None (fp : FeatureProbe.t) (toggle : string) (user : FPUser.t) :
  FeatureProbe.Repo fp = None
  \/ (exists repo, FeatureProbe.Repo fp = Some repo
                   /\ Repository.Toggles repo !! toggle = None) ->
  resolved evalDetail fp toggle user = None.
Proof.
  unfold resolved. intros [->|(repo & -> & ->)]; reflexivity.
Qed.

(** genericDetail, by what the lookup and the evaluation come to. *)
Lemma genericDetail_resolved (fp : FeatureProbe.t) (nanos : Z) (toggle : string)
    (user : FPUser.t) (defaultValue : value) :
  genericDetail evalDetail fp nanos toggle user defaultValue =
    match resolved evalDetail fp toggle user with
    | None => (defaultValue, None, None, "Toggle:[" +:+ toggle +:+ "] not exist", fp)
    | Some (detail, err) =>
        let value := match err with None => EvalDetail.Value detail | Some _ => defaultValue end in
        (value, EvalDetail.RuleIndex detail, EvalDetail.Version detail, EvalDetail.Reason detail,
         match FeatureProbe.Recorder fp with
         | Some recorder =>
             FeatureProbe.with_Recorder fp
               (RecordAccess recorder
                  (AccessEvent.mk (Z.quot nanos 1000000) toggle value
                     (EvalDetail.VariationIndex detail) (EvalDetail.Version detail)
                     (EvalDetail.Reason detail)))
         | None => fp
         end)
    end.
Proof.
  unfold genericDetail, resolved.
  destruct (FeatureProbe.Repo fp) as [repo|]; [|reflexivity].
  destruct (Repository.Toggles repo !! toggle) as [t|]; [|reflexivity].
  destruct (evalDetail t user (Repository.Segments repo)) as [detail err]. reflexivity.
Qed.

(** Every accessor leaves the client as its one call of genericDetail does. *)
Lemma clientAfter_genericDetail (call : accessor) (fp : FeatureProbe.t) (nanos : Z)
    (toggle : string) (user : FPUser.t) :
  clientAfter evalDetail call fp nanos toggle user
  = snd (genericDetail evalDetail fp nanos toggle user (defaultOf call)).
Proof.
  destruct call; cbn;
    unfold BoolValue, StrValue, NumberValue, JsonValue, BoolDetail, StrDetail,
      NumberDetail, JsonDetail;
    destruct (genericDetail evalDetail fp nanos toggle user _) as [[[[v ri] ver] reason] fp'];
    cbn; try reflexivity.
  - destruct (assertBool v); reflexivity.
  - destruct (assertString v); reflexivity.
  - destruct (assertInt v); [reflexivity|]. destruct (assertFloat64 v); reflexivity.
  - destruct (assertBool v); reflexivity.
  - destruct (assertString v); reflexivity.
  - destruct (assertFloat64 v); reflexivity.
Qed.

(** C2 (amended): a call of any of the eight accessors on a client with a
    recorder enqueues exactly one AccessEvent when the repository is there
    and holds the toggle key, whatever the evaluation comes to (on an error
    of the evaluation the event carries the default value); it enqueues
    nothing when the repository is nil or the key is absent. *)
Theorem accessor_records_resolved_toggle (call : accessor) (fp : FeatureProbe.t) (nanos : Z)
    (toggle : string) (user : FPUser.t) (recorder : EventRecorder.t) :
  FeatureProbe.Recorder fp = Some recorder ->
  pending (clientAfter evalDetail call fp nanos toggle user)
  = pending fp ++
      match resolved evalDetail fp toggle user with
      | Some (detail, err) =>
          [AccessEvent.mk (Z.quot nanos 1000000) toggle
             (match err with None => EvalDetail.Value detail | Some _ => defaultOf call end)
             (EvalDetail.VariationIndex detail) (EvalDetail.Version detail)
             (EvalDetail.Reason detail)]
      | None => []
      end.
Proof.
  intros Hr. rewrite clientAfter_genericDetail, genericDetail_resolved.
  destruct (resolved evalDetail fp toggle user) as [[detail err]|]; cbn.
  - unfold pending. rewrite Hr. reflexivity.
  - rewrite app_nil_r. reflexivity.
Qed.

(** C6 (amended): when the evaluation succeeds with a value that is not of
    the kind of the typed detail accessor, the detail keeps the rule index
    and the version of the evaluation, carries the default value of the
    caller, and its reason is "Value type mismatch", with a capital V. *)
Theorem typed_detail_mismatch (fp : FeatureProbe.t) (nanos : Z) (toggle : string)
    (user : FPUser.t) (detail : EvalDetail.t) :
  resolved evalDetail fp toggle user = Some (detail, None) ->
  (forall defaultValue, assertBool (EvalDetail.Value detail) = None ->
     fst (BoolDetail evalDetail fp nanos toggle user defaultValue)
     = FPDetail.mk defaultValue (EvalDetail.RuleIndex detail) (EvalDetail.Version detail)
         "Value type mismatch")
  /\ (forall defaultValue, assertString (EvalDetail.Value detail) = None ->
        fst (StrDetail evalDetail fp nanos toggle user defaultValue)
        = FPDetail.mk defaultValue (EvalDetail.RuleIndex detail) (EvalDetail.Version detail)
            "Value type mismatch")
  /\ (forall defaultValue, assertFloat64 (EvalDetail.Value detail) = None ->
        fst (NumberDetail evalDetail fp nanos toggle user defaultValue)
        = FPDetail.mk defaultValue (EvalDetail.RuleIndex detail) (EvalDetail.Version detail)
            "Value type mismatch").
Proof.
  intros Hres. repeat split; intros defaultValue Hkind;
    unfold BoolDetail, StrDetail, NumberDetail;
    rewrite genericDetail_resolved, Hres; cbn; rewrite Hkind; reflexivity.
Qed.

(** C7: when the repository is nil or does not hold the toggle key, every
    accessor returns the default value of the caller, and the reason of
    every detail contains "not exist". *)
Theorem absent_toggle_gives_default (fp : FeatureProbe.t) (nanos : Z) (toggle : string)
    (user : FPUser.t) (b : bool) (s : string) (f : float64) (j : value) :
  FeatureProbe.Repo fp = None
  \/ (exists repo, FeatureProbe.Repo fp = Some repo
                   /\ Repository.Toggles repo !! toggle = None) ->
  let reason := "Toggle:[" +:+ toggle +:+ "] not exist" in
  fst (BoolValue evalDetail fp nanos toggle user b) = b
  /\ fst (StrValue evalDetail fp nanos toggle user s) = s
  /\ fst (NumberValue evalDetail fp nanos toggle user f) = f
  /\ fst (JsonValue evalDetail fp nanos toggle user j) = j
  /\ fst (BoolDetail evalDetail fp nanos toggle user b) = FPDetail.mk b None None reason
  /\ fst (StrDetail evalDetail fp nanos toggle user s) = FPDetail.mk s None None reason
  /\ fst (NumberDetail evalDetail fp nanos toggle user f) = FPDetail.mk f None None reason
  /\ fst (JsonDetail evalDetail fp nanos toggle user j) = FPDetail.mk j None None reason
  /\ Contains reason "not exist" = true.
Proof.
  intros Habsent reason. apply (resolved_None fp toggle user) in Habsent.
  unfold BoolValue, StrValue, NumberValue, JsonValue, BoolDetail, StrDetail,
    NumberDetail, JsonDetail.
  rewrite !genericDetail_resolved, Habsent. cbn.
  repeat split; try reflexivity. apply not_exist_reason.
Qed.

(** C8: JsonValue and JsonDetail hand on what the evaluation comes to: the
    value of a successful evaluation, of whatever kind, with its reason;
    the default with the reason of the evaluation when the evaluation
    fails; the default with the reason of the absence when the toggle is
    not found.  No reason is put in its place. *)
Theorem json_accessor_never_mismatches (fp : FeatureProbe.t) (nanos : Z) (toggle : string)
    (user : FPUser.t) (defaultValue : value) :
  fst (JsonDetail evalDetail fp nanos toggle user defaultValue)
  = match resolved evalDetail fp toggle user with
    | Some (detail, None) =>
        FPDetail.mk (EvalDetail.Value detail) (EvalDetail.RuleIndex detail)
          (EvalDetail.Version detail) (EvalDetail.Reason detail)
    | Some (detail, Some _) =>
        FPDetail.mk defaultValue (EvalDetail.RuleIndex detail)
          (EvalDetail.Version detail) (EvalDetail.Reason detail)
    | None =>
        FPDetail.mk defaultValue None None ("Toggle:[" +:+ toggle +:+ "] not exist")
    end
  /\ fst (JsonValue evalDetail fp nanos toggle user defaultValue)
     = FPDetail.Value (fst (JsonDetail evalDetail fp nanos toggle user defaultValue)).
Proof.
  unfold JsonDetail, JsonValue. rewrite genericDetail_resolved.
  destruct (resolved evalDetail fp toggle user) as [[detail [err|]]|]; cbn; auto.
Qed.

(** C10: when the evaluation succeeds with a Go int, NumberValue returns
    that integer as a float64, and NumberDetail returns the default value
    of the caller with the reason "Value type mismatch". *)
Theorem number_accessors_disagree_on_int (fp : FeatureProbe.t) (nanos : Z) (toggle : string)
    (user : FPUser.t) (detail : EvalDetail.t) (i : Z) (defaultValue : float64) :
  resolved evalDetail fp toggle user = Some (detail, None) ->
  EvalDetail.Value detail = VInt i ->
  fst (NumberValue evalDetail fp nanos toggle user defaultValue) = float64_of_int i
  /\ fst (NumberDetail evalDetail fp nanos toggle user defaultValue)
     = FPDetail.mk defaultValue (EvalDetail.RuleIndex detail) (EvalDetail.Version detail)
         "Value type mismatch".
Proof.
  intros Hres Hint. unfold NumberValue, NumberDetail.
  rewrite genericDetail_resolved, Hres. cbn. rewrite Hint. cbn. auto.
Qed.

End FacadeProperties.

(** C2 (as stated, refuted): on a client with a recorder and no repository,
    and on a client with a recorder whose repository lacks the key, a call
    of BoolValue enqueues no event. *)
Lemma accessor_on_absent_toggle_records_nothing :
  FeatureProbe.Recorder bareClient <> None
  /\ pending bareClient = []
  /\ pending (snd (BoolValue evalFixed bareClient 0 "bool_toggle" plainUser true)) = []
  /\ FeatureProbe.Recorder numberClient <> None
  /\ pending numberClient = []
  /\ pending (snd (BoolValue evalFixed numberClient 0 "not_exist_toggle" plainUser true)) = [].
Proof.
  repeat split; try discriminate; reflexivity.
Qed.

(** BoolValue on a toggle that the repository holds enqueues one event. *)
Lemma accessor_records_resolved_toggle_witness :
  pending (clientAfter evalFixed (CallBoolValue true) numberClient 1700000000000000000
             "number_toggle" plainUser)
  = [AccessEvent.mk 1700000000000 "number_toggle" (VFloat (float64_of_int 2))
       (Some (Ptr 1%positive 0)) (Some (Ptr 3%positive 0)) "default rule"].
Proof.
  apply (accessor_records_resolved_toggle evalFixed (CallBoolValue true) numberClient
           1700000000000000000 "number_toggle" plainUser
           (NewEventRecorder "http://collector/api/events" 2000 "key")).
  reflexivity.
Defined.

(** C6 (as stated, refuted): the boolean detail accessor on a toggle whose
    variation is a number returns the default true, and its reason is not
    "value type mismatch": the first letter is a capital. *)
Lemma typed_detail_mismatch_reason_is_capitalised :
  FPDetail.Value (fst (BoolDetail evalFixed numberClient 0 "number_toggle" plainUser true)) = true
  /\ FPDetail.Reason (fst (BoolDetail evalFixed numberClient 0 "number_toggle" plainUser true))
     <> "value type mismatch".
Proof.
  split; [reflexivity|]. vm_compute. discriminate.
Qed.

(** TestEvalTypeMismatch: the number toggle through BoolDetail. *)
Lemma typed_detail_mismatch_witness :
  fst (BoolDetail evalFixed numberClient 0 "number_toggle" plainUser true)
  = FPDetail.mk true None (Some (Ptr 3%positive 0)) "Value type mismatch".
Proof.
  apply (typed_detail_mismatch evalFixed numberClient 0 "number_toggle" plainUser
           (EvalDetail.mk (VFloat (float64_of_int 2)) (Some (Ptr 1%positive 0)) None
              (Some (Ptr 3%positive 0)) "default rule")).
  - reflexivity.
  - reflexivity.
Defined.

(** TestEvalNotExist *)
Lemma absent_toggle_gives_default_witness :
  fst (BoolValue evalFixed numberClient 0 "not_exist_toggle" plainUser true) = true
  /\ fst (StrValue evalFixed numberClient 0 "not_exist_toggle" plainUser "1") = "1"
  /\ fst (NumberValue evalFixed numberClient 0 "not_exist_toggle" plainUser (float64_of_int 1))
     = float64_of_int 1
  /\ fst (JsonValue evalFixed numberClient 0 "not_exist_toggle" plainUser VNil) = VNil
  /\ FPDetail.Reason (fst (JsonDetail evalFixed numberClient 0 "not_exist_toggle" plainUser VNil))
     = "Toggle:[not_exist_toggle] not exist".
Proof.
  destruct (absent_toggle_gives_default evalFixed numberClient 0 "not_exist_toggle" plainUser
              true "1" (float64_of_int 1) VNil)
    as (Hb & Hs & Hf & Hj & _ & _ & _ & Hjd & _).
  - right. eexists. split; reflexivity.
  - rewrite Hb, Hs, Hf, Hj, Hjd. repeat split; reflexivity.
Defined.

(** TestUnitTestingForCaller: "toggle0" holds the Go int 0. *)
Lemma number_accessors_disagree_on_int_witness :
  fst (NumberValue evalFixed intClient 0 "toggle0" plainUser (float64_of_int 2))
  = float64_of_int 0
  /\ fst (NumberDetail evalFixed intClient 0 "toggle0" plainUser (float64_of_int 2))
     = FPDetail.mk (float64_of_int 2) None (Some (Ptr 3%positive 0)) "Value type mismatch".
Proof.
  apply (number_accessors_disagree_on_int evalFixed intClient 0 "toggle0" plainUser
           (EvalDetail.mk (VInt 0) (Some (Ptr 1%positive 0)) None (Some (Ptr 3%positive 0))
              "default rule") 0 (float64_of_int 2)).
  - reflexivity.
  - reflexivity.
Defined.

(** TestUnitTestingForCaller, on the engine of the specification. *)
Example unit_testing_for_caller :
  let fp := NewFeatureProbeForTest
              (<["toggle0" := VInt 0]>
                 (<["toggle1" := VFloat (float64_of_int 1)]>
                    (<["toggle2" := VBool true]>
                       (<["toggle3" := VStr "red"]>
                          {[ "toggle4" := VSlice [VInt 1; VInt 2; VInt 3] ]})))) in
  fst (NumberValue evalFixed fp 0 "toggle0" plainUser (float64_of_int 2)) = float64_of_int 0
  /\ fst (NumberValue evalFixed fp 0 "toggle1" plainUser (float64_of_int 2)) = float64_of_int 1
  /\ fst (BoolValue evalFixed fp 0 "toggle2" plainUser false) = true
  /\ fst (StrValue evalFixed fp 0 "toggle3" plainUser "blue") = "red"
  /\ fst (JsonValue evalFixed fp 0 "toggle4" plainUser VNil) = VSlice [VInt 1; VInt 2; VInt 3].
Proof. vm_compute. repeat split. Qed.

(** TestEvalNilRepo *)
Example eval_nil_repo :
  let fp := FeatureProbe.mk (WithRefreshInterval 100 zeroConfig) None None in
  fst (BoolValue evalFixed fp 0 "bool_toggle" plainUser true) = true
  /\ FPDetail.Value (fst (BoolDetail evalFixed fp 0 "bool_toggle" plainUser true)) = true
  /\ fst (StrValue evalFixed fp 0 "string_toggle" plainUser "1") = "1"
  /\ FPDetail.Value (fst (StrDetail evalFixed fp 0 "string_toggle" plainUser "1")) = "1"
  /\ fst (NumberValue evalFixed fp 0 "number_toggle" plainUser (float64_of_int 1))
     = float64_of_int 1
  /\ FPDetail.Value (fst (NumberDetail evalFixed fp 0 "number_toggle" plainUser (float64_of_int 1)))
     = float64_of_int 1
  /\ fst (JsonValue evalFixed fp 0 "json_toggle" plainUser VNil) = VNil
  /\ FPDetail.Value (fst (JsonDetail evalFixed fp 0 "json_toggle" plainUser VNil)) = VNil.
Proof. vm_compute. repeat split. Qed.

(** * The configuration *)

Lemma configure_snoc (remoteUrl severSdkKey : string) (opts : list Option) (opt : Option) :
  configure remoteUrl severSdkKey (opts ++ [opt]) = opt (configure remoteUrl severSdkKey opts).
Proof.
  unfold configure. rewrite fold_left_app. reflexivity.
Qed.

(** C9: whatever the options, the client that NewFeatureProbe returns
    carries the configuration that its loop over the options builds (the
    call panics when the interval of that configuration, in nanoseconds,
    is not a positive period for the ticker of the recorder).  Without
    options that configuration has the interval 2000 and waits for the
    first response, and NewFeatureProbe returns a client that carries it;
    each option, applied after any others, sets its own field (the two
    paths are appended to the remote URL) and leaves the other five as
    they were. *)
Theorem default_configuration_and_options (remoteUrl severSdkKey : string) :
  (forall opts,
     FeatureProbe.Config <$> NewFeatureProbe remoteUrl severSdkKey opts
     = if wrap64 (FPConfig.RefreshInterval (configure remoteUrl severSdkKey opts) * Millisecond)
          <=? 0
       then None
       else Some (configure remoteUrl severSdkKey opts))
  /\ (FPConfig.RefreshInterval (configure remoteUrl severSdkKey []) = 2000
   /\ FPConfig.WaitFirstResp (configure remoteUrl severSdkKey []) = true
   /\ exists fp, NewFeatureProbe remoteUrl severSdkKey [] = Some fp
                 /\ FeatureProbe.Config fp = configure remoteUrl severSdkKey [])
  /\ (forall opts uri,
        let before := configure remoteUrl severSdkKey opts in
        let after := configure remoteUrl severSdkKey (opts ++ [WithTogglesUri uri]) in
        FPConfig.TogglesUrl after = FPConfig.RemoteUrl before +:+ uri
        /\ FPConfig.RemoteUrl after = FPConfig.RemoteUrl before
        /\ FPConfig.EventsUrl after = FPConfig.EventsUrl before
        /\ FPConfig.ServerSdkKey after = FPConfig.ServerSdkKey before
        /\ FPConfig.RefreshInterval after = FPConfig.RefreshInterval before
        /\ FPConfig.WaitFirstResp after = FPConfig.WaitFirstResp before)
  /\ (forall opts uri,
        let before := configure remoteUrl severSdkKey opts in
        let after := configure remoteUrl severSdkKey (opts ++ [WithEventsUri uri]) in
        FPConfig.EventsUrl after = FPConfig.RemoteUrl before +:+ uri
        /\ FPConfig.RemoteUrl after = FPConfig.RemoteUrl before
        /\ FPConfig.TogglesUrl after = FPConfig.TogglesUrl before
        /\ FPConfig.ServerSdkKey after = FPConfig.ServerSdkKey before
        /\ FPConfig.RefreshInterval after = FPConfig.RefreshInterval before
        /\ FPConfig.WaitFirstResp after = FPConfig.WaitFirstResp before)
  /\ (forall opts interval,
        let before := configure remoteUrl severSdkKey opts in
        let after := configure remoteUrl severSdkKey (opts ++ [WithRefreshInterval interval]) in
        FPConfig.RefreshInterval after = interval
        /\ FPConfig.RemoteUrl after = FPConfig.RemoteUrl before
        /\ FPConfig.TogglesUrl after = FPConfig.TogglesUrl before
        /\ FPConfig.EventsUrl after = FPConfig.EventsUrl before
        /\ FPConfig.ServerSdkKey after = FPConfig.ServerSdkKey before
        /\ FPConfig.WaitFirstResp after = FPConfig.WaitFirstResp before)
  /\ (forall opts wait,
        let before := configure remoteUrl severSdkKey opts in
        let after := configure remoteUrl severSdkKey (opts ++ [WithWaitFirstResp wait]) in
        FPConfig.WaitFirstResp after = wait
        /\ FPConfig.RemoteUrl after = FPConfig.RemoteUrl before
        /\ FPConfig.TogglesUrl after = FPConfig.TogglesUrl before
        /\ FPConfig.EventsUrl after = FPConfig.EventsUrl before
        /\ FPConfig.ServerSdkKey after = FPConfig.ServerSdkKey before
        /\ FPConfig.RefreshInterval after = FPConfig.RefreshInterval before).
Proof.
  split.
  { intros opts. unfold NewFeatureProbe, Start. cbn. destruct (_ <=? 0); reflexivity. }
  split; [|repeat split; rewrite configure_snoc; reflexivity].
  repeat split. eexists. split; reflexivity.
Qed.

(** The client that NewFeatureProbe returns carries the configuration of
    the options; the call panics when the interval, in nanoseconds, is not
    a positive period for the ticker of the recorder. *)
Lemma NewFeatureProbe_Config (remoteUrl severSdkKey : string) (opts : list Option) :
  FeatureProbe.Config <$> NewFeatureProbe remoteUrl severSdkKey opts
  = if wrap64 (FPConfig.RefreshInterval (configure remoteUrl severSdkKey opts) * Millisecond)
       <=? 0
    then None
    else Some (configure remoteUrl severSdkKey opts).
Proof.
  unfold NewFeatureProbe, Start. cbn. destruct (_ <=? 0); reflexivity.
Qed.

(** TestClientWithOption and TestClientOptionDefaultValue. *)
Example client_with_options :
  FeatureProbe.Config <$>
    NewFeatureProbe "http://fakeRemoteUrl/" "fakeSdkKey"
      [WithEventsUri "eventUrl"; WithTogglesUri "toggleUrl"; WithWaitFirstResp false;
       WithRefreshInterval 100]
  = Some (FPConfig.mk "http://fakeRemoteUrl/" "http://fakeRemoteUrl/toggleUrl"
            "http://fakeRemoteUrl/eventUrl" "fakeSdkKey" 100 false).
Proof. reflexivity. Qed.

Example client_without_options :
  FeatureProbe.Config <$> NewFeatureProbe "http://fakeRemoteUrl/" "fakeSdkKey" []
  = Some (FPConfig.mk "http://fakeRemoteUrl/" "http://fakeRemoteUrl/api/server-sdk/toggles"
            "http://fakeRemoteUrl/api/events" "fakeSdkKey" 2000 true).
Proof. reflexivity. Qed.

(** * More on the aggregation *)

Lemma ptr_eqb_refl {A} (p : option (ptr A)) : ptr_eqb p p = true.
Proof. destruct p; cbn; [apply Pos.eqb_refl|reflexivity]. Qed.

Lemma ptr_eqb_sym {A} (p q : option (ptr A)) : ptr_eqb p q = ptr_eqb q p.
Proof. destruct p, q; cbn; try reflexivity. apply Pos.eqb_sym. Qed.

Lemma ptr_eqb_trans {A} (p q r : option (ptr A)) :
  ptr_eqb p q = true -> ptr_eqb q r = true -> ptr_eqb p r = true.
Proof.
  destruct p, q, r; cbn; try congruence.
  rewrite !Pos.eqb_eq. congruence.
Qed.

Lemma Variation_eqb_true (a b : Variation.t) :
  Variation.eqb a b = true
  <-> Variation.Key a = Variation.Key b
      /\ ptr_eqb (Variation.Index a) (Variation.Index b) = true
      /\ ptr_eqb (Variation.Version a) (Variation.Version b) = true.
Proof.
  unfold Variation.eqb. rewrite !andb_true_iff, String.eqb_eq. tauto.
Qed.

Lemma Variation_eqb_refl (a : Variation.t) : Variation.eqb a a = true.
Proof. apply Variation_eqb_true. auto using @ptr_eqb_refl. Qed.

Lemma Variation_eqb_sym (a b : Variation.t) :
  Variation.eqb a b = true -> Variation.eqb b a = true.
Proof.
  rewrite !Variation_eqb_true. intros (-> & Hi & Hv).
  rewrite (ptr_eqb_sym (Variation.Index b)), (ptr_eqb_sym (Variation.Version b)). auto.
Qed.

Lemma Variation_eqb_trans (a b c : Variation.t) :
  Variation.eqb a b = true -> Variation.eqb b c = true -> Variation.eqb a c = true.
Proof.
  rewrite !Variation_eqb_true. intros (-> & Hi & Hv) (-> & Hi' & Hv').
  eauto using @ptr_eqb_trans.
Qed.

Lemma find_app_first {A} (f : A -> bool) (l1 l2 : list A) :
  List.find f (l1 ++ l2)
  = match List.find f l1 with
    | Some x => Some x
    | None => List.find f l2
    end.
Proof.
  induction l1 as [|a l1 IH]; [reflexivity|]. cbn. destruct (f a); [reflexivity|exact IH].
Qed.

Lemma counterMap_get_app (m : counterMap) (k q : Variation.t) (c : CountValue.t) :
  counterMap_get (m ++ [(k, c)]) q
  = match counterMap_get m q with
    | Some x => Some x
    | None => if Variation.eqb k q then Some c else None
    end.
Proof.
  induction m as [|[k' c'] m IH]; cbn; [reflexivity|].
  destruct (Variation.eqb k' q); [reflexivity|exact IH].
Qed.

Section MoreAggregation.

Variable rv : rangeVar.

Lemma fold_countEvent_firstFiled (events seen : list AccessEvent.t) (st : countState) :
  (forall k, counterMap_get (counters st) k
             = (fun ev => CountValue.mk 1 (AccessEvent.Value ev)) <$> firstFiled seen k) ->
  forall k, counterMap_get (counters (fold_left (countEvent rv) events st)) k
            = (fun ev => CountValue.mk 1 (AccessEvent.Value ev)) <$> firstFiled (seen ++ events) k.
Proof.
  revert seen st. induction events as [|event events IH]; intros seen st Hst k; cbn [fold_left].
  - rewrite app_nil_r. apply Hst.
  - replace (seen ++ event :: events) with ((seen ++ [event]) ++ events)
      by (rewrite <- app_assoc; reflexivity).
    apply IH. clear IH k. intros k. rewrite countEvent_counters.
    unfold firstFiled in *. rewrite find_app_first. cbn [List.find].
    destruct (counterMap_get (counters st) (variationOf event)) as [c|] eqn:Hget.
    + rewrite Hst. destruct (List.find _ seen) as [first|] eqn:Hfind; [reflexivity|].
      destruct (Variation.eqb (variationOf event) k) eqn:Hk; [|reflexivity].
      exfalso. rewrite Hst in Hget.
      destruct (List.find (fun ev => Variation.eqb (variationOf ev) (variationOf event)) seen)
        as [e0|] eqn:H0; [|discriminate].
      apply find_some in H0 as [Hin H0].
      pose proof (find_none _ _ Hfind e0 Hin) as Hno. cbn in Hno.
      rewrite (Variation_eqb_trans _ _ _ H0 Hk) in Hno. discriminate.
    + rewrite counterMap_get_app, Hst.
      destruct (List.find _ seen) as [first|]; [reflexivity|].
      destruct (Variation.eqb (variationOf event) k); reflexivity.
Qed.

Lemma counterMap_of_batch (events : list AccessEvent.t) (cs : counterMap)
    (s e : Z) (k : Variation.t) :
  buildCounters rv events = Some (cs, s, e) ->
  counterMap_get cs k
  = (fun ev => CountValue.mk 1 (AccessEvent.Value ev)) <$> firstFiled events k.
Proof.
  unfold buildCounters. cbv zeta. intros H.
  destruct (startTime _); [|discriminate].
  destruct (endTime _); [|discriminate].
  injection H as <- _ _.
  apply (fold_countEvent_firstFiled events [] (CountState None None [] [])).
  reflexivity.
Qed.

(** X1: buildCounters as a map.  Under any key, the map that
    buildCounters returns holds count 1 and the value of the first event
    of the batch that has that key, and nothing when no event has it. *)
Theorem buildCounters_holds_first_value (events : list AccessEvent.t) (cs : counterMap)
    (s e : Z) (k : Variation.t) :
  buildCounters rv events = Some (cs, s, e) ->
  counterMap_get cs k
  = (fun ev => CountValue.mk 1 (AccessEvent.Value ev)) <$> firstFiled events k.
Proof. apply counterMap_of_batch. Qed.

(** X2: buildCounters fails, on the nil pointers it dereferences,
    exactly on the empty batch. *)
Theorem buildCounters_fails_on_empty_only (events : list AccessEvent.t) :
  buildCounters rv events = None <-> events = [].
Proof.
  split.
  - destruct events as [|event events]; [reflexivity|].
    destruct (buildCounters_returns rv event events) as (cs & s & e & -> & _). discriminate.
  - intros ->. reflexivity.
Qed.

End MoreAggregation.

(** Two events for "t" and one for "u": the map holds the value of the
    first event for "t". *)
Lemma buildCounters_holds_first_value_witness :
  counterMap_get
    [(Variation.mk "t" None None, CountValue.mk 1 (VBool true));
     (Variation.mk "u" None None, CountValue.mk 1 (VStr "x"))]
    (Variation.mk "t" None None)
  = Some (CountValue.mk 1 (VBool true)).
Proof.
  exact (buildCounters_holds_first_value PerIteration
           [sampleEvent 1; AccessEvent.mk 5 "u" (VStr "x") None None "default rule";
            AccessEvent.mk 3 "t" (VBool false) None None "default rule"]
           _ 5 1 (Variation.mk "t" None None) eq_refl).
Defined.

(** * More on buildAccess *)

Lemma counterMap_get_Some_elem (m : list (Variation.t * CountValue.t)) (k : Variation.t) (c : CountValue.t) :
  counterMap_get m k = Some c -> exists k', (k', c) ∈ m /\ Variation.eqb k' k = true.
Proof.
  induction m as [|[k' c'] m IH]; cbn; [discriminate|].
  destruct (Variation.eqb k' k) eqn:Hk.
  - intros [= ->]. exists k'. split; [left|exact Hk].
  - intros H. destruct (IH H) as (k0 & Hin & H0). exists k0. split; [right; exact Hin|exact H0].
Qed.

Lemma counterMap_get_None_filter (m : list (Variation.t * CountValue.t)) (k : Variation.t) :
  counterMap_get m k = None -> filter (fun kc => Variation.eqb (fst kc) k = true) m = [].
Proof.
  induction m as [|[k' c'] m IH]; cbn [counterMap_get]; [reflexivity|].
  destruct (Variation.eqb k' k) eqn:Hk; [discriminate|].
  intros H. rewrite filter_cons_False by (cbn; congruence). apply IH, H.
Qed.

(** The loop of buildAccess: under a toggle key it appends, in the order of
    the visit, the counters of the entries that have this key. *)
Lemma fold_addCounter_lookup (order : list (Variation.t * CountValue.t)) (acc : gmap string (list ToggleCounter.t))
    (key : string) :
  fold_left addCounter order acc !! key
  = match acc !! key, counterOf <$> filter (fun kc => Variation.Key (fst kc) = key) order with
    | Some cs, new => Some (cs ++ new)
    | None, [] => None
    | None, new => Some new
    end.
Proof.
  revert acc. induction order as [|[k v] order IH]; intros acc; cbn [fold_left].
  - rewrite filter_nil. cbn. destruct (acc !! key); [rewrite app_nil_r|]; reflexivity.
  - rewrite IH. clear IH. unfold addCounter.
    destruct (decide (Variation.Key k = key)) as [Hk|Hk].
    + rewrite filter_cons_True by exact Hk. subst key. cbn [fmap list_fmap].
      destruct (acc !! Variation.Key k) as [cs|]; rewrite lookup_insert_eq.
      * rewrite <- app_assoc. reflexivity.
      * reflexivity.
    + rewrite filter_cons_False by exact Hk.
      destruct (acc !! Variation.Key k) as [cs|]; rewrite lookup_insert_ne by exact Hk;
        reflexivity.
Qed.

Lemma buildAccessIn_lookup (order : list (Variation.t * CountValue.t)) (s e : Z) (key : string) :
  Access.Counters (buildAccessIn order s e) !! key
  = match counterOf <$> filter (fun kc => Variation.Key (fst kc) = key) order with
    | [] => None
    | new => Some new
    end.
Proof.
  unfold buildAccessIn. cbn. rewrite fold_addCounter_lookup, lookup_empty. reflexivity.
Qed.

Section AccessProperties.

Variable rv : rangeVar.

Lemma fold_countEvent_one_entry_per_key (events : list AccessEvent.t) (st : countState) :
  (forall k, (length (filter (fun kc => Variation.eqb (fst kc) k = true) (counters st)) <= 1)%nat) ->
  forall k, (length (filter (fun kc => Variation.eqb (fst kc) k = true)
                       (counters (fold_left (countEvent rv) events st))) <= 1)%nat.
Proof.
  unfold counterMap in *.
  revert st. induction events as [|event events IH]; intros st Hst; cbn [fold_left]; [exact Hst|].
  apply IH. clear IH. intros k. rewrite countEvent_counters.
  destruct (counterMap_get (counters st) (variationOf event)) eqn:Hget; [apply Hst|].
  rewrite filter_app, length_app.
  destruct (Variation.eqb (variationOf event) k) eqn:Hk.
  - rewrite filter_cons_True by exact Hk. rewrite filter_nil. cbn [length].
    assert (Hnone : counterMap_get (counters st) k = None).
    { destruct (counterMap_get (counters st) k) as [c|] eqn:Hc; [|reflexivity].
      apply counterMap_get_Some_elem in Hc as (k' & Hin & Hk').
      apply counterMap_get_None_filter in Hget.
      assert (Hin' : (k', c) ∈ filter (fun kc => Variation.eqb (fst kc) (variationOf event) = true)
                                (counters st)).
      { apply list_elem_of_filter. split; [|exact Hin]. cbn.
        eapply Variation_eqb_trans; [exact Hk'|]. apply Variation_eqb_sym, Hk. }
      unfold counterMap in *. rewrite Hget in Hin'. inversion Hin'. }
    rewrite (counterMap_get_None_filter _ _ Hnone). cbn. lia.
  - rewrite filter_cons_False by (cbn; congruence). rewrite filter_nil. cbn [length].
    specialize (Hst k). lia.
Qed.

Lemma buildCounters_one_entry_per_key (events : list AccessEvent.t) (cs : list (Variation.t * CountValue.t))
    (s e : Z) (k : Variation.t) :
  buildCounters rv events = Some (cs, s, e) ->
  (length (filter (fun kc => Variation.eqb (fst kc) k = true) cs) <= 1)%nat.
Proof.
  unfold buildCounters. cbv zeta. intros H.
  destruct (startTime _); [|discriminate].
  destruct (endTime _); [|discriminate].
  injection H as <- _ _.
  apply fold_countEvent_one_entry_per_key. intros k'. cbn. lia.
Qed.

(** X3: the counters that buildAccess files under a toggle key, in any
    order of the visit of the map: each has count 1 and carries the index
    pointer, the version pointer and the value of an event of the batch
    that has this toggle key. *)
Theorem counters_come_from_events (events : list AccessEvent.t) (a : Access.t)
    (key : string) (cs : list ToggleCounter.t) (c : ToggleCounter.t) :
  buildAccess_any rv events a -> Access.Counters a !! key = Some cs -> c ∈ cs ->
  ToggleCounter.Count c = 1
  /\ exists event, event ∈ events /\ AccessEvent.Key event = key
       /\ ToggleCounter.Index c = AccessEvent.Index event
       /\ ToggleCounter.Version c = AccessEvent.Version event
       /\ ToggleCounter.Value c = AccessEvent.Value event.
Proof.
  intros (counters & s & e & order & Hb & Hperm & ->) Hlook Hin.
  destruct (buildAccessIn_entries order s e key cs c Hlook Hin) as (kc & Hkc & -> & ->).
  apply buildCounters_fresh_counts in Hb.
  rewrite Hperm in Hkc.
  unfold fresh_counts in Hb. rewrite Forall_forall in Hb.
  destruct (Hb kc Hkc) as (event & Hev & Hk & Hc).
  destruct kc as [k v]. cbn in *. subst k v. cbn. eauto 10.
Qed.

Lemma event_is_counted (events : list AccessEvent.t) (a : Access.t)
    (event : AccessEvent.t) :
  buildAccess_any rv events a -> event ∈ events ->
  exists cs c first,
    Access.Counters a !! AccessEvent.Key event = Some cs /\ c ∈ cs
    /\ ToggleCounter.Count c = 1
    /\ ptr_eqb (ToggleCounter.Index c) (AccessEvent.Index event) = true
    /\ ptr_eqb (ToggleCounter.Version c) (AccessEvent.Version event) = true
    /\ firstFiled events (variationOf event) = Some first
    /\ ToggleCounter.Value c = AccessEvent.Value first.
Proof.
  intros (counters & s & e & order & Hb & Hperm & ->) Hin.
  pose proof (counterMap_of_batch rv events counters s e (variationOf event) Hb)
    as Hget.
  destruct (firstFiled events (variationOf event)) as [first|] eqn:Hfirst.
  - cbn in Hget. apply counterMap_get_Some_elem in Hget as (k' & Hk'in & Hk').
    apply Variation_eqb_true in Hk' as (Hkey & Hi & Hv). cbn in Hkey, Hi, Hv.
    rewrite <- Hperm in Hk'in.
    pose proof (buildAccessIn_lookup order s e (AccessEvent.Key event)) as Hlook.
    assert (Hfiled : (k', CountValue.mk 1 (AccessEvent.Value first))
                     ∈ filter (fun kc => Variation.Key (fst kc) = AccessEvent.Key event) order).
    { apply list_elem_of_filter. split; [exact Hkey|exact Hk'in]. }
    apply (list_elem_of_fmap_2 counterOf) in Hfiled.
    destruct (counterOf <$> filter _ order) as [|c0 l] eqn:Hl; [inversion Hfiled|].
    exists (c0 :: l), (counterOf (k', CountValue.mk 1 (AccessEvent.Value first))), first.
    repeat split; auto.
  - exfalso. unfold firstFiled in Hfirst.
    apply list_elem_of_In in Hin.
    pose proof (find_none _ _ Hfirst event Hin) as Hno. cbn in Hno.
    rewrite Variation_eqb_refl in Hno. discriminate.
Qed.

(** X4: no event of the batch goes uncounted.  Whatever the order of the
    visit of the map, under the toggle key of every event there is a
    counter with count 1 whose index and version pointers are those of the
    event, and whose value is that of the first event of the batch with
    this key and these pointers. *)
Theorem every_event_has_its_counter (events : list AccessEvent.t) (a : Access.t)
    (event : AccessEvent.t) :
  buildAccess_any rv events a -> event ∈ events ->
  exists cs c first,
    Access.Counters a !! AccessEvent.Key event = Some cs /\ c ∈ cs
    /\ ToggleCounter.Count c = 1
    /\ ptr_eqb (ToggleCounter.Index c) (AccessEvent.Index event) = true
    /\ ptr_eqb (ToggleCounter.Version c) (AccessEvent.Version event) = true
    /\ firstFiled events (variationOf event) = Some first
    /\ ToggleCounter.Value c = AccessEvent.Value first.
Proof. apply event_is_counted. Qed.

(** X5: the collapse.  Whatever the order of the visit of the map, under
    a toggle key there is at most one counter for a pair of an index
    pointer and a version pointer: the events that agree on the key and
    the two pointers share one counter. *)
Theorem one_counter_per_variation (events : list AccessEvent.t) (a : Access.t)
    (key : string) (cs : list ToggleCounter.t) (index version : option (ptr Z)) :
  buildAccess_any rv events a -> Access.Counters a !! key = Some cs ->
  (length (filter (fun c => ptr_eqb (ToggleCounter.Index c) index = true
                            /\ ptr_eqb (ToggleCounter.Version c) version = true) cs) <= 1)%nat.
Proof.
  intros (counters & s & e & order & Hb & Hperm & ->) Hlook.
  rewrite buildAccessIn_lookup in Hlook.
  assert (Hcs : cs = counterOf <$> filter (fun kc => Variation.Key (fst kc) = key) order).
  { destruct (counterOf <$> filter _ order); [discriminate|]. congruence. }
  subst cs.
  pose proof (buildCounters_one_entry_per_key events counters s e
                (Variation.mk key index version) Hb) as Hone.
  rewrite <- Hperm in Hone.
  eapply Nat.le_trans; [|exact Hone]. clear Hone Hlook Hperm Hb.
  induction order as [|[k v] order IH]; [cbn; lia|].
  destruct (decide (Variation.Key k = key)) as [Hk|Hk].
  - rewrite (filter_cons_True (fun kc => Variation.Key (fst kc) = key)) by exact Hk.
    cbn [fmap list_fmap].
    destruct (decide (ptr_eqb (Variation.Index k) index = true
                      /\ ptr_eqb (Variation.Version k) version = true)) as [Hp|Hp].
    + rewrite filter_cons_True by exact Hp.
      rewrite (filter_cons_True (fun kc => Variation.eqb (fst kc) _ = true)).
      * cbn [length]. apply le_n_S, IH.
      * cbn. apply Variation_eqb_true. cbn. tauto.
    + rewrite filter_cons_False by exact Hp.
      rewrite (filter_cons_False (fun kc => Variation.eqb (fst kc) _ = true)); [exact IH|].
      cbn. rewrite Variation_eqb_true. cbn. tauto.
  - rewrite (filter_cons_False (fun kc => Variation.Key (fst kc) = key)) by exact Hk.
    rewrite (filter_cons_False (fun kc => Variation.eqb (fst kc) _ = true)); [exact IH|].
    cbn. rewrite Variation_eqb_true. cbn. tauto.
Qed.

(** X6: the toggle keys under which buildAccess files counters are
    exactly the toggle keys of the events of the batch. *)
Theorem counters_cover_the_toggles_of_the_batch (events : list AccessEvent.t) (a : Access.t) :
  buildAccess_any rv events a ->
  dom (Access.Counters a) = list_to_set (AccessEvent.Key <$> events).
Proof.
  intros Hany. apply set_eq. intros key.
  rewrite elem_of_dom, elem_of_list_to_set, list_elem_of_fmap. split.
  - intros [cs Hcs].
    destruct Hany as (counters & s & e & order & Hb & Hperm & ->).
    pose proof Hcs as Hlook. rewrite buildAccessIn_lookup in Hlook.
    destruct (filter (fun kc => Variation.Key (fst kc) = key) order) as [|kc l] eqn:Hf;
      [discriminate|].
    assert (Hin : kc ∈ filter (fun kc => Variation.Key (fst kc) = key) order)
      by (rewrite Hf; left).
    apply list_elem_of_filter in Hin as [Hkey Hin]. rewrite Hperm in Hin.
    apply buildCounters_fresh_counts in Hb. unfold fresh_counts in Hb.
    rewrite Forall_forall in Hb. destruct (Hb kc Hin) as (event & Hev & Hk & _).
    exists event. split; [|exact Hev]. rewrite <- Hkey, Hk. reflexivity.
  - intros (event & -> & Hin).
    destruct (event_is_counted events a event Hany Hin) as (cs & c & first & Hcs & _).
    exists cs. exact Hcs.
Qed.

End AccessProperties.

(** The one counter of the toggle "t" in [sampleAccess]. *)
Lemma counters_come_from_events_witness :
  ToggleCounter.Count (ToggleCounter.mk (VBool true) None None 1) = 1
  /\ exists event, event ∈ sampleBatch /\ AccessEvent.Key event = "t"
       /\ ToggleCounter.Index (ToggleCounter.mk (VBool true) None None 1) = AccessEvent.Index event
       /\ ToggleCounter.Version (ToggleCounter.mk (VBool true) None None 1)
          = AccessEvent.Version event
       /\ ToggleCounter.Value (ToggleCounter.mk (VBool true) None None 1)
          = AccessEvent.Value event.
Proof.
  apply (counters_come_from_events PerIteration sampleBatch sampleAccess "t"
           [ToggleCounter.mk (VBool true) None None 1]
           (ToggleCounter.mk (VBool true) None None 1)).
  - apply buildAccess_is_any. reflexivity.
  - reflexivity.
  - left.
Defined.

(** The third event of [sampleBatch] is counted with the first. *)
Lemma every_event_has_its_counter_witness :
  exists cs c first,
    Access.Counters sampleAccess !! "t" = Some cs /\ c ∈ cs
    /\ ToggleCounter.Count c = 1
    /\ ptr_eqb (ToggleCounter.Index c) None = true
    /\ ptr_eqb (ToggleCounter.Version c) None = true
    /\ firstFiled sampleBatch (Variation.mk "t" None None) = Some first
    /\ ToggleCounter.Value c = AccessEvent.Value first.
Proof.
  apply (every_event_has_its_counter PerIteration sampleBatch sampleAccess
           (AccessEvent.mk 3 "t" (VBool false) None None "default rule")).
  - apply buildAccess_is_any. reflexivity.
  - right. right. left.
Defined.

(** One counter under "t" in [sampleAccess] for the nil pointers. *)
Lemma one_counter_per_variation_witness :
  (length (filter (fun c => ptr_eqb (ToggleCounter.Index c) None = true
                            /\ ptr_eqb (ToggleCounter.Version c) None = true)
             [ToggleCounter.mk (VBool true) None None 1]) <= 1)%nat.
Proof.
  apply (one_counter_per_variation PerIteration sampleBatch sampleAccess "t"
           [ToggleCounter.mk (VBool true) None None 1] None None).
  - apply buildAccess_is_any. reflexivity.
  - reflexivity.
Defined.

(** [sampleAccess] has counters for "t" and "u". *)
Lemma counters_cover_the_toggles_of_the_batch_witness :
  dom (Access.Counters sampleAccess) = list_to_set (AccessEvent.Key <$> sampleBatch).
Proof.
  apply (counters_cover_the_toggles_of_the_batch PerIteration sampleBatch sampleAccess).
  apply buildAccess_is_any. reflexivity.
Defined.

(** * More on the time window and the flush *)

Lemma maximum_bounds (l : list Z) (x : Z) :
  x <= maximum x l /\ (forall y, y ∈ l -> y <= maximum x l) /\ maximum x l ∈ x :: l.
Proof.
  unfold maximum. revert x. induction l as [|y l IH]; intros x; cbn.
  - repeat split; [lia| |left]. intros y Hy. inversion Hy.
  - destruct (IH (Z.max x y)) as (Hx & Hall & Hin). repeat split.
    + lia.
    + intros z Hz. apply elem_of_cons in Hz as [->|Hz]; [lia|auto].
    + apply elem_of_cons in Hin as [Hin|Hin].
      * rewrite Hin. destruct (Z.max_spec x y) as [[_ ->]|[_ ->]]; [right; left|left].
      * right. right. exact Hin.
Qed.

Lemma minimum_bounds (l : list Z) (x : Z) :
  minimum x l <= x /\ (forall y, y ∈ l -> minimum x l <= y) /\ minimum x l ∈ x :: l.
Proof.
  unfold minimum. revert x. induction l as [|y l IH]; intros x; cbn.
  - repeat split; [lia| |left]. intros y Hy. inversion Hy.
  - destruct (IH (Z.min x y)) as (Hx & Hall & Hin). repeat split.
    + lia.
    + intros z Hz. apply elem_of_cons in Hz as [->|Hz]; [lia|auto].
    + apply elem_of_cons in Hin as [Hin|Hin].
      * rewrite Hin. destruct (Z.min_spec x y) as [[_ ->]|[_ ->]]; [left|right; left].
      * right. right. exact Hin.
Qed.

Lemma last_elem_of {A} (l : list A) (d : A) : List.last l d ∈ d :: l.
Proof.
  revert d. induction l as [|a l IH]; intros d; [left|].
  rewrite (last_cons_default l a d). right. apply IH.
Qed.

(** X7: the window of a batch that is not empty consists of two times of
    the batch, and EndTime is never after StartTime, with either kind of
    loop variable. *)
Theorem window_is_within_the_batch (rv : rangeVar) (event : AccessEvent.t)
    (events : list AccessEvent.t) :
  exists a,
    buildAccess rv (event :: events) = Some a
    /\ Access.EndTime a <= Access.StartTime a
    /\ Access.StartTime a ∈ AccessEvent.Time <$> event :: events
    /\ Access.EndTime a ∈ AccessEvent.Time <$> event :: events.
Proof.
  destruct (buildAccess_window rv event events) as (a & Ha & Hw).
  exists a. split; [exact Ha|]. destruct rv.
  - destruct Hw as [-> ->]. split; [lia|].
    assert (Hin : AccessEvent.Time (List.last events event) ∈ AccessEvent.Time <$> event :: events).
    { apply list_elem_of_fmap_2, last_elem_of. }
    auto.
  - destruct Hw as [-> ->].
    destruct (maximum_bounds (map AccessEvent.Time events) (AccessEvent.Time event))
      as (Hmax & _ & Hmaxin).
    destruct (minimum_bounds (map AccessEvent.Time events) (AccessEvent.Time event))
      as (Hmin & _ & Hminin).
    split; [lia|]. split; assumption.
Qed.

Section MoreFlush.

Variable rv : rangeVar.
Variable parseURL : string -> bool.

Lemma doFlush_outcome (e : EventRecorder.t) :
  snd (doFlush rv parseURL e)
  = match EventRecorder.incomingEvents e with
    | [] => NothingPending
    | event :: events =>
        match buildAccess rv (event :: events) with
        | Some a =>
            if parseURL (EventRecorder.eventsUrl e) then
              Posted (mkRequest "POST" (EventRecorder.eventsUrl e)
                        [("Authorization", EventRecorder.auth e);
                         ("Content-Type", "application/json");
                         ("User-Agent", "Go/1.1.0")]
                        (Marshal [PackedData.mk (event :: events) a]))
            else RequestRefused
        | None => NilDereference
        end
    end.
Proof.
  unfold doFlush. destruct (EventRecorder.incomingEvents e) as [|event events]; [reflexivity|].
  cbn [length Nat.eqb]. unfold buildPackedData.
  destruct (buildAccess rv (event :: events)); [|reflexivity].
  cbn. destruct (parseURL _); reflexivity.
Qed.

(** X8: a flush always empties the queue and changes nothing else of the
    recorder, whether the batch is posted or not: it posts nothing exactly
    when nothing is pending or when the URL is refused, it never runs into
    the nil dereference of buildCounters, and a flush right after a flush
    finds nothing pending.  A batch is never kept for another try. *)
Theorem doFlush_drops_the_batch (e : EventRecorder.t) :
  fst (doFlush rv parseURL e) = EventRecorder.with_incomingEvents e []
  /\ (snd (doFlush rv parseURL e) = NothingPending <-> EventRecorder.incomingEvents e = [])
  /\ snd (doFlush rv parseURL e) <> NilDereference
  /\ ((exists req, snd (doFlush rv parseURL e) = Posted req)
      <-> EventRecorder.incomingEvents e <> [] /\ parseURL (EventRecorder.eventsUrl e) = true)
  /\ snd (doFlush rv parseURL (fst (doFlush rv parseURL e))) = NothingPending.
Proof.
  split; [apply doFlush_recorder|].
  split; [|split; [apply doFlush_no_nil_dereference|split]].
  - rewrite doFlush_outcome.
    destruct (EventRecorder.incomingEvents e) as [|event events]; [tauto|].
    destruct (buildAccess_window rv event events) as (a & -> & _).
    destruct (parseURL _); split; discriminate.
  - rewrite doFlush_outcome.
    destruct (EventRecorder.incomingEvents e) as [|event events].
    + split; [intros [req H]; discriminate|intros [H _]; congruence].
    + destruct (buildAccess_window rv event events) as (a & -> & _).
      destruct (parseURL _); split.
      * intros _. split; [discriminate|reflexivity].
      * intros _. eauto.
      * intros [req H]. discriminate.
      * intros [_ H]. discriminate.
  - rewrite doFlush_outcome, doFlush_recorder. reflexivity.
Qed.

Lemma fold_RecordAccess (events : list AccessEvent.t) (e : EventRecorder.t) :
  fold_left RecordAccess events e
  = EventRecorder.with_incomingEvents e (EventRecorder.incomingEvents e ++ events).
Proof.
  revert e. induction events as [|event events IH]; intros e; cbn [fold_left].
  - rewrite app_nil_r. destruct e; reflexivity.
  - rewrite IH. unfold RecordAccess, EventRecorder.with_incomingEvents. cbn.
    rewrite <- app_assoc. reflexivity.
Qed.

(** Whatever the order of the visit of the map, the access record is of
    a batch whose values can all be encoded, and so is marshalled. *)
Lemma Marshal_packed (events : list AccessEvent.t) (a : Access.t) :
  buildAccess_any rv events a ->
  forallb (fun ev => encodable (AccessEvent.Value ev)) events = true ->
  exists evs counters,
    mapM marshalAccessEvent events = Some evs
    /\ Marshal [PackedData.mk events a]
       = Some (JArray [JObject [("events", JArray evs);
                                ("access", JObject [("startTime", JInt (Access.StartTime a));
                                                    ("endTime", JInt (Access.EndTime a));
                                                    ("counters", counters)])]]).
Proof.
  intros Hany Henc. rewrite forallb_forall in Henc.
  destruct (mapM_is_Some marshalAccessEvent events) as [_ Hevs].
  destruct Hevs as [evs Hevs].
  { apply Forall_forall. intros ev Hin. apply marshalAccessEvent_encodable, Henc.
    apply list_elem_of_In. exact Hin. }
  destruct (marshalCounters_encodable (Access.Counters a)) as [cs Hcs].
  { intros key l c Hl Hc.
    destruct (buildAccess_any_counts_one rv events a key l c Hany Hl Hc)
      as (_ & ev & Hin & _ & ->).
    apply Henc, list_elem_of_In. exact Hin. }
  exists evs, cs. split; [exact Hevs|].
  rewrite Marshal_one. unfold marshalPackedData, marshalAccess.
  cbn [PackedData.Events PackedData.Access]. rewrite Hevs, Hcs. reflexivity.
Qed.

Lemma Marshal_packed_fails (events : list AccessEvent.t) (a : Access.t) :
  forallb (fun ev => encodable (AccessEvent.Value ev)) events = false ->
  Marshal [PackedData.mk events a] = None.
Proof.
  intros Henc.
  assert (Hevs : mapM marshalAccessEvent events = None).
  { apply mapM_None, Exists_exists.
    induction events as [|ev events IH]; [discriminate|].
    cbn in Henc. apply andb_false_iff in Henc as [Hev|Hrest].
    - exists ev. split; [left|].
      unfold marshalAccessEvent, encodable in *.
      destruct (marshalValue (AccessEvent.Value ev)); [discriminate|reflexivity].
    - destruct (IH Hrest) as (ev' & Hin & Hnone).
      exists ev'. split; [right; exact Hin|exact Hnone]. }
  rewrite Marshal_one. unfold marshalPackedData. cbn [PackedData.Events].
  rewrite Hevs. reflexivity.
Qed.

Lemma mapM_marshalAccessEvent_encodes (events : list AccessEvent.t) (evs : list json) :
  mapM marshalAccessEvent events = Some evs -> Forall2 encodes events evs.
Proof.
  rewrite mapM_Some. intros Hall. eapply Forall2_impl; [exact Hall|].
  clear Hall. intros event doc H.
  unfold marshalAccessEvent in H.
  destruct (marshalValue (AccessEvent.Value event)) as [v|]; [|discriminate].
  cbn in H. injection H as <-.
  exists (AccessEvent.Key event), v, (AccessEvent.Reason event). auto.
Qed.

(** The run of [doFlush] is one of the runs of [doFlush_any]. *)
Lemma doFlush_is_any (e : EventRecorder.t) :
  doFlush_any rv parseURL e (doFlush rv parseURL e).
Proof.
  unfold doFlush_any, doFlush.
  destruct (EventRecorder.incomingEvents e) as [|event events]; [reflexivity|].
  cbn [length Nat.eqb]. unfold buildPackedData.
  destruct (buildAccess rv (event :: events)) as [a|] eqn:Ha.
  - right. exists a. split; [apply buildAccess_is_any; exact Ha|].
    cbn. destruct (parseURL _); reflexivity.
  - left. split; [|reflexivity].
    unfold buildAccess in Ha.
    destruct (buildCounters rv (event :: events)) as [[[cs s] t]|]; [discriminate|reflexivity].
Qed.

(** X9: the queue is first in, first out, and a flush posts all of it,
    whatever the order in which buildAccess visits its map.  After any
    calls of RecordAccess, every run of a flush to a URL that is accepted
    empties the queue and posts one request: a POST to the events URL, with
    the auth string as Authorization, the JSON content type and the user
    agent Go/1.1.0.  When json.Marshal can encode the value of every event,
    its body is an array of one object: the member events has one element
    for each event that was pending and then for each recorded one, in the
    order of the calls, with the time, the index and the version of that
    event (and its key and reason when these are ASCII); the member access
    has the start and the end time of an access record that buildAccess
    can return for exactly these events.  Otherwise the body is empty. *)
Theorem flush_posts_what_was_recorded (e : EventRecorder.t) (events : list AccessEvent.t)
    (r : EventRecorder.t * flushOutcome) :
  parseURL (EventRecorder.eventsUrl e) = true ->
  EventRecorder.incomingEvents e ++ events <> [] ->
  doFlush_any rv parseURL (fold_left RecordAccess events e) r ->
  fst r = EventRecorder.with_incomingEvents e []
  /\ exists req,
       snd r = Posted req
       /\ Method req = "POST"
       /\ URL req = EventRecorder.eventsUrl e
       /\ Header req = [("Authorization", EventRecorder.auth e);
                        ("Content-Type", "application/json");
                        ("User-Agent", "Go/1.1.0")]
       /\ if forallb (fun ev => encodable (AccessEvent.Value ev))
               (EventRecorder.incomingEvents e ++ events)
          then exists evs a counters,
                 Body req
                 = Some (JArray [JObject [("events", JArray evs);
                                          ("access",
                                           JObject [("startTime", JInt (Access.StartTime a));
                                                    ("endTime", JInt (Access.EndTime a));
                                                    ("counters", counters)])]])
                 /\ Forall2 encodes (EventRecorder.incomingEvents e ++ events) evs
                 /\ buildAccess_any rv (EventRecorder.incomingEvents e ++ events) a
          else Body req = None.
Proof.
  intros Hurl Hne. rewrite fold_RecordAccess. unfold doFlush_any.
  cbn [EventRecorder.incomingEvents EventRecorder.with_incomingEvents
       EventRecorder.eventsUrl EventRecorder.auth].
  destruct (EventRecorder.incomingEvents e ++ events) as [|event rest] eqn:Hall; [congruence|].
  cbn [length Nat.eqb]. rewrite Hurl.
  intros [[Hnil _]|(a & Hany & ->)].
  - destruct (buildAccess_window rv event rest) as (a & Ha & _).
    unfold buildAccess in Ha. rewrite Hnil in Ha. discriminate.
  - split; [reflexivity|]. eexists. split; [reflexivity|]. cbn [Method URL Header Body].
    repeat (split; [reflexivity|]).
    destruct (forallb _ (event :: rest)) eqn:Henc.
    + destruct (Marshal_packed (event :: rest) a Hany Henc) as (evs & counters & Hevs & Hm).
      exists evs, a, counters. split; [exact Hm|].
      split; [apply mapM_marshalAccessEvent_encodes; exact Hevs|exact Hany].
    + apply Marshal_packed_fails. exact Henc.
Qed.

End MoreFlush.

(** Two events recorded on a new recorder and flushed, in the run in which
    buildAccess visits the second entry of its map first: a run of the
    flush, and not the one of [doFlush]. *)
Lemma flush_posts_what_was_recorded_witness :
  doFlush_any PerIteration (fun _ => true) (fold_left RecordAccess twoVariations newRecorder)
    (newRecorder, Posted swappedRequest)
  /\ snd (doFlush PerIteration (fun _ => true)
            (fold_left RecordAccess twoVariations newRecorder))
     <> Posted swappedRequest
  /\ fst (newRecorder, Posted swappedRequest)
     = EventRecorder.with_incomingEvents newRecorder []
  /\ exists req,
       snd (newRecorder, Posted swappedRequest) = Posted req
       /\ Method req = "POST"
       /\ URL req = "http://collector/api/events"
       /\ Header req = [("Authorization", "key");
                        ("Content-Type", "application/json");
                        ("User-Agent", "Go/1.1.0")]
       /\ exists evs a counters,
            Body req
            = Some (JArray [JObject [("events", JArray evs);
                                     ("access",
                                      JObject [("startTime", JInt (Access.StartTime a));
                                               ("endTime", JInt (Access.EndTime a));
                                               ("counters", counters)])]])
            /\ Forall2 encodes twoVariations evs
            /\ buildAccess_any PerIteration twoVariations a.
Proof.
  assert (Hrun : doFlush_any PerIteration (fun _ => true)
                   (fold_left RecordAccess twoVariations newRecorder)
                   (newRecorder, Posted swappedRequest)).
  { right. exists swappedAccess. split; [|reflexivity].
    exists [(Variation.mk "t" None None, CountValue.mk 1 (VBool true));
            (Variation.mk "t" (Some (Ptr 1%positive 1)) None, CountValue.mk 1 (VBool false))],
           2, 1,
           [(Variation.mk "t" (Some (Ptr 1%positive 1)) None, CountValue.mk 1 (VBool false));
            (Variation.mk "t" None None, CountValue.mk 1 (VBool true))].
    split; [reflexivity|]. split; [apply perm_swap|reflexivity]. }
  split; [exact Hrun|]. split; [vm_compute; discriminate|].
  apply (flush_posts_what_was_recorded PerIteration (fun _ => true) newRecorder twoVariations
           (newRecorder, Posted swappedRequest)).
  - reflexivity.
  - discriminate.
  - exact Hrun.
Defined.

(** * More on the life cycle *)

Section MoreLifeCycle.

Variable rv : rangeVar.
Variable parseURL : string -> bool.

Lemma StopSignal_keeps (e : EventRecorder.t) :
  EventRecorder.wg (StopSignal e) = EventRecorder.wg e
  /\ EventRecorder.startOnce (StopSignal e) = EventRecorder.startOnce e
  /\ EventRecorder.incomingEvents (StopSignal e) = EventRecorder.incomingEvents e.
Proof.
  unfold StopSignal. destruct (EventRecorder.stopChan e);
    try destruct (EventRecorder.stopOnce e); auto.
Qed.

Lemma step_accounted (s s' : system) (a : action) (n : Z) :
  accounted s n -> step rv parseURL s a = Some s' ->
  accounted s' (n + (if isStart a then 1 else 0)).
Proof.
  unfold accounted. intros (Hwg & Hcases) Hstep.
  destruct a; cbn [isStart]; cbn in Hstep.
  - unfold Start in Hstep. cbn in Hstep.
    destruct (EventRecorder.startOnce (recorder s)) eqn:Hso.
    + injection Hstep as <-. cbn. split; [lia|].
      destruct Hcases as [(? & ? & ? & ? & ?)|[(? & ? & ? & ? & ?)|(? & ? & ? & ? & ?)]];
        [congruence|right; left|right; right]; repeat split; auto; lia.
    + destruct (_ <=? 0); [discriminate|]. injection Hstep as <-. cbn.
      destruct Hcases as [(? & ? & ? & Hf & ?)|[(? & ? & ? & ? & ?)|(? & ? & ? & ? & ?)]];
        try congruence.
      rewrite Hf in *. split; [lia|]. right. left. repeat split; auto; lia.
  - injection Hstep as <-. cbn. rewrite Z.add_0_r. auto.
  - injection Hstep as <-. cbn. rewrite Z.add_0_r.
    destruct (StopSignal_keeps (recorder s)) as (-> & -> & _). auto.
  - destruct (waiting s); [discriminate|].
    destruct (EventRecorder.wg (recorder s) =? 0); [|discriminate].
    injection Hstep as <-. cbn. rewrite Z.add_0_r. auto.
  - destruct (flushLoop s) eqn:Hl; try discriminate.
    pose proof (doFlush_recorder rv parseURL (recorder s)) as Hf.
    destruct (doFlush rv parseURL (recorder s)) as [e o]. cbn in Hf. subst e.
    injection Hstep as <-. cbn. rewrite Z.add_0_r. auto.
  - destruct (flushLoop s) eqn:Hl; try discriminate.
    destruct (EventRecorder.stopChan (recorder s)); try discriminate.
    pose proof (doFlush_recorder rv parseURL (recorder s)) as Hf.
    destruct (doFlush rv parseURL (recorder s)) as [e o]. cbn in Hf. subst e.
    injection Hstep as <-. cbn. rewrite Z.add_0_r.
    destruct Hcases as [(? & ? & ? & ? & ?)|[(? & ? & ? & Hf & ?)|(? & ? & ? & ? & ?)]];
      try congruence.
    rewrite Hf in Hwg. split; [lia|]. right. right. repeat split; auto.
Qed.

Lemma starts_cons (a : action) (trace : list action) :
  starts (a :: trace) = (if isStart a then 1 else 0) + starts trace.
Proof.
  unfold starts. destruct (isStart a) eqn:Ha.
  - rewrite filter_cons_True by (rewrite Ha; exact I). cbn [length]. lia.
  - rewrite filter_cons_False by (rewrite Ha; exact id). lia.
Qed.

Lemma run_accounted (trace : list action) (s s' : system) (n : Z) :
  accounted s n -> run rv parseURL s trace = Some s' -> accounted s' (n + starts trace).
Proof.
  revert s n. induction trace as [|a trace IH]; intros s n Hs; cbn [run].
  - intros [= <-]. unfold starts. cbn. rewrite Z.add_0_r. exact Hs.
  - destruct (step rv parseURL s a) as [s1|] eqn:Hstep; [|discriminate].
    intros Hrun. rewrite starts_cons, Z.add_assoc.
    eapply IH; [|exact Hrun]. eapply step_accounted; eassumption.
Qed.

(** X10: the accounts of the WaitGroup.  In every run of a new recorder,
    whatever its callers and its flush loop do, at most one flush loop is
    launched, and it is launched if and only if Start was called; the
    loop flushes for the last time at most once; the WaitGroup counts the
    calls of Start less that final flush, and never goes below zero. *)
Theorem WaitGroup_accounts (url auth : string) (interval : Z) (trace : list action)
    (s : system) :
  run rv parseURL (boot (NewEventRecorder url interval auth)) trace = Some s ->
  (launched s <= 1)%nat
  /\ (launched s = 1%nat <-> 1 <= starts trace)
  /\ (finalFlushes s <= launched s)%nat
  /\ EventRecorder.wg (recorder s) = starts trace - Z.of_nat (finalFlushes s)
  /\ 0 <= EventRecorder.wg (recorder s).
Proof.
  intros Hrun.
  assert (H0 : accounted (boot (NewEventRecorder url interval auth)) 0).
  { unfold accounted. cbn. split; [reflexivity|]. left. auto. }
  destruct (run_accounted trace _ s 0 H0 Hrun) as (Hwg & Hcases).
  rewrite Z.add_0_l in *.
  destruct Hcases as [(? & Hl & ? & Hf & ?)|[(? & Hl & ? & Hf & ?)|(? & Hl & ? & Hf & ?)]];
    rewrite Hl, Hf in *; repeat split; try lia.
Qed.

Lemma run_not_launched (trace : list action) (s s' : system) :
  flushLoop s = NotLaunched -> starts trace = 0 -> run rv parseURL s trace = Some s' ->
  flushLoop s' = NotLaunched /\ flushed s' = flushed s /\ finalFlushes s' = finalFlushes s
  /\ EventRecorder.wg (recorder s') = EventRecorder.wg (recorder s)
  /\ EventRecorder.incomingEvents (recorder s')
     = EventRecorder.incomingEvents (recorder s) ++ recorded trace.
Proof.
  revert s. induction trace as [|a trace IH]; intros s Hl H0; cbn [run].
  - intros [= <-]. cbn. rewrite app_nil_r. auto.
  - rewrite starts_cons in H0.
    assert (Hst : 0 <= starts trace) by (unfold starts; lia).
    destruct a; cbn [isStart] in H0; try lia; cbn [step recorded].
    + intros Hrun. apply IH in Hrun; [|exact Hl|lia].
      destruct Hrun as (? & ? & ? & ? & Hin).
      cbn in *. repeat split; auto. rewrite Hin, <- app_assoc. reflexivity.
    + intros Hrun. apply IH in Hrun; [|exact Hl|lia].
      destruct Hrun as (? & ? & ? & Hwg & Hin).
      cbn in *. destruct (StopSignal_keeps (recorder s)) as (Hw & _ & Hi).
      rewrite Hw in Hwg. rewrite Hi in Hin. auto.
    + destruct (waiting s); [discriminate|].
      destruct (EventRecorder.wg (recorder s) =? 0); [|discriminate].
      intros Hrun. apply IH in Hrun; [exact Hrun|exact Hl|lia].
    + rewrite Hl. discriminate.
    + rewrite Hl. discriminate.
Qed.

(** X11: a recorder on which Start was never called never flushes.  In
    every run without a call of Start no doFlush happens, and the events
    handed to RecordAccess all stay in the queue, in the order of the
    calls. *)
Theorem recorder_never_started_never_flushes (url auth : string) (interval : Z)
    (trace : list action) (s : system) :
  starts trace = 0 ->
  run rv parseURL (boot (NewEventRecorder url interval auth)) trace = Some s ->
  flushed s = [] /\ finalFlushes s = 0%nat
  /\ EventRecorder.incomingEvents (recorder s) = recorded trace.
Proof.
  intros H0 Hrun.
  destruct (run_not_launched trace (boot (NewEventRecorder url interval auth)) s
              eq_refl H0 Hrun) as (_ & Hf & Hff & _ & Hin).
  auto.
Qed.

Lemma run_record_all (events : list AccessEvent.t) (s : system) :
  run rv parseURL s (map CallRecordAccess events)
  = Some (System (fold_left RecordAccess events (recorder s)) (flushLoop s) (launched s)
            (flushed s) (finalFlushes s) (waiting s) (stopped s)).
Proof.
  revert s. induction events as [|event events IH]; intros s; cbn [map run fold_left step].
  - destruct s; reflexivity.
  - rewrite IH. reflexivity.
Qed.

(** X12: Stop on a recorder that was never started returns at once and
    delivers nothing.  After any calls of RecordAccess on a new recorder, a
    call of Stop closes the stop channel and returns, no flush has
    happened, and the events are still in the queue. *)
Theorem Stop_without_Start_returns_and_delivers_nothing (url auth : string) (interval : Z)
    (events : list AccessEvent.t) :
  run rv parseURL (boot (NewEventRecorder url interval auth))
    (map CallRecordAccess events ++ [CallStop; StopReturns])
  = Some (System (EventRecorder.mk auth url interval events [] 0 false true ChanClosed None)
            NotLaunched 0 [] 0 0 1).
Proof.
  rewrite run_app, run_record_all, fold_RecordAccess. reflexivity.
Qed.

Lemma run_returned (trace : list action) (s s' : system) :
  flushLoop s = Returned -> EventRecorder.startOnce (recorder s) = true ->
  run rv parseURL s trace = Some s' ->
  flushLoop s' = Returned /\ flushed s' = flushed s /\ finalFlushes s' = finalFlushes s
  /\ launched s' = launched s
  /\ EventRecorder.incomingEvents (recorder s')
     = EventRecorder.incomingEvents (recorder s) ++ recorded trace.
Proof.
  revert s. induction trace as [|a trace IH]; intros s Hl Hso; cbn [run].
  - intros [= <-]. rewrite app_nil_r. auto.
  - destruct a; cbn [step recorded].
    + unfold Start. cbn. rewrite Hso. intros Hrun.
      apply IH in Hrun; [exact Hrun|exact Hl|exact Hso].
    + intros Hrun. apply IH in Hrun; [|exact Hl|exact Hso].
      destruct Hrun as (? & ? & ? & ? & Hin).
      cbn in *. repeat split; auto. rewrite Hin, <- app_assoc. reflexivity.
    + destruct (StopSignal_keeps (recorder s)) as (_ & Hs & Hi).
      intros Hrun. apply IH in Hrun; [|exact Hl|cbn; congruence].
      destruct Hrun as (? & ? & ? & ? & Hin).
      cbn in *. rewrite Hi in Hin. auto.
    + destruct (waiting s); [discriminate|].
      destruct (EventRecorder.wg (recorder s) =? 0); [|discriminate].
      intros Hrun. apply IH in Hrun; [exact Hrun|exact Hl|exact Hso].
    + rewrite Hl. discriminate.
    + rewrite Hl. discriminate.
Qed.

(** X13: once the flush loop has returned, nothing is flushed any more.
    In every run from then on, whatever is called, also Start, no doFlush
    happens and no loop is launched: the events handed to RecordAccess
    pile up in the queue. *)
Theorem nothing_is_flushed_after_the_loop_returned (trace : list action) (s s' : system) :
  flushLoop s = Returned -> EventRecorder.startOnce (recorder s) = true ->
  run rv parseURL s trace = Some s' ->
  flushed s' = flushed s /\ launched s' = launched s
  /\ EventRecorder.incomingEvents (recorder s')
     = EventRecorder.incomingEvents (recorder s) ++ recorded trace.
Proof.
  intros Hl Hso Hrun.
  destruct (run_returned trace s s' Hl Hso Hrun) as (_ & ? & _ & ? & ?). auto.
Qed.

End MoreLifeCycle.

(** A run with two calls of Start and a final flush. *)
Lemma WaitGroup_accounts_witness :
  match
    run PerLoop (fun _ => true) (boot (NewEventRecorder "http://collector/api/events" 2000 "key"))
      [CallStart; CallStart; CallStop; TickCase; StopCase]
  with
  | Some s =>
      (launched s <= 1)%nat
      /\ (launched s = 1%nat <-> 1 <= 2)
      /\ (finalFlushes s <= launched s)%nat
      /\ EventRecorder.wg (recorder s) = 2 - Z.of_nat (finalFlushes s)
      /\ 0 <= EventRecorder.wg (recorder s)
  | None => False
  end.
Proof.
  destruct (run PerLoop (fun _ => true)
              (boot (NewEventRecorder "http://collector/api/events" 2000 "key"))
              [CallStart; CallStart; CallStop; TickCase; StopCase]) as [s|] eqn:Hrun.
  - exact (WaitGroup_accounts PerLoop (fun _ => true) "http://collector/api/events" "key" 2000
             [CallStart; CallStart; CallStop; TickCase; StopCase] s Hrun).
  - vm_compute in Hrun. discriminate Hrun.
Defined.

(** Two events recorded, then Stop, on a recorder that was not started. *)
Lemma recorder_never_started_never_flushes_witness :
  match
    run PerLoop (fun _ => true) (boot (NewEventRecorder "http://collector/api/events" 2000 "key"))
      [CallRecordAccess (sampleEvent 1); CallStop; CallRecordAccess (sampleEvent 2); StopReturns]
  with
  | Some s =>
      flushed s = [] /\ finalFlushes s = 0%nat
      /\ EventRecorder.incomingEvents (recorder s) = [sampleEvent 1; sampleEvent 2]
  | None => False
  end.
Proof.
  destruct (run PerLoop (fun _ => true)
              (boot (NewEventRecorder "http://collector/api/events" 2000 "key"))
              [CallRecordAccess (sampleEvent 1); CallStop; CallRecordAccess (sampleEvent 2);
               StopReturns]) as [s|] eqn:Hrun.
  - exact (recorder_never_started_never_flushes PerLoop (fun _ => true)
             "http://collector/api/events" "key" 2000
             [CallRecordAccess (sampleEvent 1); CallStop; CallRecordAccess (sampleEvent 2);
              StopReturns] s eq_refl Hrun).
  - vm_compute in Hrun. discriminate Hrun.
Defined.

(** [stoppedSystem] is where Start, Stop and the final flush lead. *)
Example stoppedSystem_reached :
  run PerLoop (fun _ => true) (boot (NewEventRecorder "http://collector/api/events" 2000 "key"))
    [CallStart; CallStop; StopCase; StopReturns] = Some stoppedSystem.
Proof. vm_compute. reflexivity. Qed.

(** An event recorded after the stop, and Start called again. *)
Lemma nothing_is_flushed_after_the_loop_returned_witness :
  match
    run PerLoop (fun _ => true) stoppedSystem
      [CallRecordAccess (sampleEvent 9); CallStart; CallStop]
  with
  | Some s' =>
      flushed s' = [NothingPending] /\ launched s' = 1%nat
      /\ EventRecorder.incomingEvents (recorder s') = [sampleEvent 9]
  | None => False
  end.
Proof.
  destruct (run PerLoop (fun _ => true) stoppedSystem
              [CallRecordAccess (sampleEvent 9); CallStart; CallStop]) as [s'|] eqn:Hrun.
  - exact (nothing_is_flushed_after_the_loop_returned PerLoop (fun _ => true)
             [CallRecordAccess (sampleEvent 9); CallStart; CallStop] stoppedSystem s'
             eq_refl eq_refl Hrun).
  - vm_compute in Hrun. discriminate Hrun.
Defined.

(** * More on the configuration *)

Lemma substring_all (s : string) : String.substring 0 (String.length s) s = s.
Proof.
  induction s as [|a s IH]; [reflexivity|].
  change (String a (String.substring 0 (String.length s) s) = String a s).
  rewrite IH. reflexivity.
Qed.

Lemma length_append (s t : string) :
  String.length (s +:+ t) = (String.length s + String.length t)%nat.
Proof.
  induction s as [|a s IH]; [reflexivity|].
  change (S (String.length (s +:+ t)) = S (String.length s + String.length t)).
  rewrite IH. reflexivity.
Qed.

Lemma substring_append (s t : string) :
  String.substring (String.length s) (String.length t) (s +:+ t) = t.
Proof.
  induction s as [|a s IH]; [apply substring_all|]. exact IH.
Qed.

Lemma HasSuffix_append (s suffix : string) : HasSuffix (s +:+ suffix) suffix = true.
Proof.
  unfold HasSuffix. cbv zeta. rewrite length_append.
  replace (String.length s + String.length suffix - String.length suffix)%nat
    with (String.length s) by lia.
  rewrite substring_append, String.eqb_refl, andb_true_r.
  apply Nat.leb_le. lia.
Qed.

Lemma prefix_append (s t : string) : String.prefix s (s +:+ t) = true.
Proof.
  induction s as [|a s IH]; [destruct t; reflexivity|].
  change (String.prefix (String a s) (String a s +:+ t))
    with (if Ascii.ascii_dec a a then String.prefix s (s +:+ t) else false).
  destruct (Ascii.ascii_dec a a); [exact IH|congruence].
Qed.

Lemma provided_frame (opt : Option) (c : FPConfig.t) :
  provided opt ->
  FPConfig.RemoteUrl (opt c) = FPConfig.RemoteUrl c
  /\ FPConfig.ServerSdkKey (opt c) = FPConfig.ServerSdkKey c
  /\ (String.prefix (FPConfig.RemoteUrl c) (FPConfig.TogglesUrl c) = true ->
      String.prefix (FPConfig.RemoteUrl c) (FPConfig.TogglesUrl (opt c)) = true)
  /\ (String.prefix (FPConfig.RemoteUrl c) (FPConfig.EventsUrl c) = true ->
      String.prefix (FPConfig.RemoteUrl c) (FPConfig.EventsUrl (opt c)) = true).
Proof.
  intros [uri|uri|interval|wait]; cbn; auto using prefix_append.
Qed.

(** X14: the remote URL of a configuration always ends with a slash: the
    URL of the caller is kept when it ends with one, and gets one appended
    otherwise.  Without options the toggles URL and the events URL are
    that URL followed by api/server-sdk/toggles and by api/events. *)
Theorem configure_normalises_the_remote_url (remoteUrl severSdkKey : string) :
  let c := configure remoteUrl severSdkKey [] in
  HasSuffix (FPConfig.RemoteUrl c) "/" = true
  /\ FPConfig.RemoteUrl c = (if HasSuffix remoteUrl "/" then remoteUrl else remoteUrl +:+ "/")
  /\ FPConfig.TogglesUrl c = FPConfig.RemoteUrl c +:+ "api/server-sdk/toggles"
  /\ FPConfig.EventsUrl c = FPConfig.RemoteUrl c +:+ "api/events"
  /\ FPConfig.ServerSdkKey c = severSdkKey.
Proof.
  cbn. repeat split.
  destruct (HasSuffix remoteUrl "/") eqn:H; [exact H|apply HasSuffix_append].
Qed.

(** X15: whatever options of the package are given, in whatever order and
    number, the remote URL stays the normalised URL of the caller, the
    key stays the key of the caller, and both the toggles URL and the
    events URL start with the remote URL. *)
Theorem provided_options_keep_the_remote (remoteUrl severSdkKey : string)
    (opts : list Option) :
  Forall provided opts ->
  let c := configure remoteUrl severSdkKey opts in
  FPConfig.RemoteUrl c = FPConfig.RemoteUrl (configure remoteUrl severSdkKey [])
  /\ FPConfig.ServerSdkKey c = severSdkKey
  /\ String.prefix (FPConfig.RemoteUrl c) (FPConfig.TogglesUrl c) = true
  /\ String.prefix (FPConfig.RemoteUrl c) (FPConfig.EventsUrl c) = true.
Proof.
  cbv zeta. induction opts as [|opt opts IH] using rev_ind; intros Hopts.
  - cbn. auto using prefix_append.
  - apply Forall_app in Hopts as [Hopts Hopt]. apply Forall_inv in Hopt.
    rewrite configure_snoc. destruct (IH Hopts) as (Hr & Hk & Ht & He).
    destruct (provided_frame opt (configure remoteUrl severSdkKey opts) Hopt)
      as (Hr' & Hk' & Ht' & He').
    rewrite Hr', Hk'. auto.
Qed.

(** The options of TestClientWithOption. *)
Lemma provided_options_keep_the_remote_witness :
  let c := configure "http://fakeRemoteUrl" "fakeSdkKey"
             [WithEventsUri "eventUrl"; WithTogglesUri "toggleUrl"; WithWaitFirstResp false;
              WithRefreshInterval 100] in
  FPConfig.RemoteUrl c = "http://fakeRemoteUrl/"
  /\ FPConfig.ServerSdkKey c = "fakeSdkKey"
  /\ String.prefix (FPConfig.RemoteUrl c) (FPConfig.TogglesUrl c) = true
  /\ String.prefix (FPConfig.RemoteUrl c) (FPConfig.EventsUrl c) = true.
Proof.
  apply (provided_options_keep_the_remote "http://fakeRemoteUrl" "fakeSdkKey"
           [WithEventsUri "eventUrl"; WithTogglesUri "toggleUrl"; WithWaitFirstResp false;
            WithRefreshInterval 100]).
  repeat constructor.
Defined.

Lemma wrap64_small (z : Z) : - 2 ^ 63 <= z < 2 ^ 63 -> wrap64 z = z.
Proof.
  intros H. unfold wrap64. rewrite Z.mod_small; lia.
Qed.

(** X16: the recorder of a new client.  For an interval between 1 and
    9223372036854 milliseconds, NewFeatureProbe returns a client with the
    configuration of the options and a recorder that has been started
    once, posts to the events URL of the configuration with its key as
    authorization, and ticks every interval milliseconds.  For an
    interval from -9223372036854 to 0 the call panics in the recorder's
    Start, as time.NewTicker does on a period that is not positive. *)
Theorem NewFeatureProbe_starts_the_recorder (remoteUrl severSdkKey : string)
    (opts : list Option) :
  let c := configure remoteUrl severSdkKey opts in
  - 9223372036854 <= FPConfig.RefreshInterval c <= 9223372036854 ->
  (fun fp => (FeatureProbe.Config fp, FeatureProbe.Recorder fp))
  <$> NewFeatureProbe remoteUrl severSdkKey opts
  = if FPConfig.RefreshInterval c <=? 0 then None
    else Some (c, Some (EventRecorder.mk (FPConfig.ServerSdkKey c) (FPConfig.EventsUrl c)
                          (FPConfig.RefreshInterval c) [] [] 1 true false ChanOpen
                          (Some (FPConfig.RefreshInterval c * 1000000)))).
Proof.
  intros c Hrange. unfold NewFeatureProbe, Start. fold c. cbn.
  unfold Millisecond. rewrite wrap64_small by lia.
  destruct (Z.leb_spec (FPConfig.RefreshInterval c * 1000000) 0);
    destruct (Z.leb_spec (FPConfig.RefreshInterval c) 0); try lia; reflexivity.
Qed.

(** TestClientOptionDefaultValue, and a client with the interval 0. *)
Lemma NewFeatureProbe_starts_the_recorder_witness :
  (fun fp => (FeatureProbe.Config fp, FeatureProbe.Recorder fp))
  <$> NewFeatureProbe "http://fakeRemoteUrl/" "fakeSdkKey" []
  = Some (configure "http://fakeRemoteUrl/" "fakeSdkKey" [],
          Some (EventRecorder.mk "fakeSdkKey" "http://fakeRemoteUrl/api/events" 2000 [] []
                  1 true false ChanOpen (Some 2000000000)))
  /\ (fun fp => (FeatureProbe.Config fp, FeatureProbe.Recorder fp))
     <$> NewFeatureProbe "http://fakeRemoteUrl/" "fakeSdkKey" [WithRefreshInterval 0] = None.
Proof.
  split.
  - apply (NewFeatureProbe_starts_the_recorder "http://fakeRemoteUrl/" "fakeSdkKey" []).
    cbn. lia.
  - apply (NewFeatureProbe_starts_the_recorder "http://fakeRemoteUrl/" "fakeSdkKey"
             [WithRefreshInterval 0]).
    cbn. lia.
Defined.

(** * More on the accessors *)

Section MoreFacade.

Variable evalDetail : evaluator.

(** X17: the value accessors and the detail accessors agree.  BoolValue,
    StrValue and JsonValue return the Value of BoolDetail, StrDetail and
    JsonDetail on the same arguments, and every pair leaves the client in
    the same state; NumberValue returns the Value of NumberDetail unless
    the evaluation succeeds with a Go int, which NumberValue converts. *)
Theorem value_accessors_agree_with_details (fp : FeatureProbe.t) (nanos : Z) (toggle : string)
    (user : FPUser.t) (b : bool) (s : string) (f : float64) (j : value) :
  BoolValue evalDetail fp nanos toggle user b
  = (FPDetail.Value (fst (BoolDetail evalDetail fp nanos toggle user b)),
     snd (BoolDetail evalDetail fp nanos toggle user b))
  /\ StrValue evalDetail fp nanos toggle user s
     = (FPDetail.Value (fst (StrDetail evalDetail fp nanos toggle user s)),
        snd (StrDetail evalDetail fp nanos toggle user s))
  /\ JsonValue evalDetail fp nanos toggle user j
     = (FPDetail.Value (fst (JsonDetail evalDetail fp nanos toggle user j)),
        snd (JsonDetail evalDetail fp nanos toggle user j))
  /\ NumberValue evalDetail fp nanos toggle user f
     = (match resolved evalDetail fp toggle user with
        | Some (detail, None) =>
            match EvalDetail.Value detail with
            | VInt i => float64_of_int i
            | _ => FPDetail.Value (fst (NumberDetail evalDetail fp nanos toggle user f))
            end
        | _ => FPDetail.Value (fst (NumberDetail evalDetail fp nanos toggle user f))
        end,
        snd (NumberDetail evalDetail fp nanos toggle user f)).
Proof.
  unfold BoolValue, StrValue, JsonValue, NumberValue, BoolDetail, StrDetail, JsonDetail,
    NumberDetail.
  rewrite !genericDetail_resolved.
  destruct (resolved evalDetail fp toggle user) as [[detail [err|]]|]; cbn;
    repeat split; try reflexivity;
    destruct (EvalDetail.Value detail); reflexivity.
Qed.

(** X18: when the evaluation succeeds with a value of the kind asked for,
    the typed accessors return it, and the detail carries the rule
    index, the version and the reason of the evaluation. *)
Theorem typed_accessors_return_the_evaluated_value (fp : FeatureProbe.t) (nanos : Z)
    (toggle : string) (user : FPUser.t) (detail : EvalDetail.t) :
  resolved evalDetail fp toggle user = Some (detail, None) ->
  (forall b defaultValue, EvalDetail.Value detail = VBool b ->
     fst (BoolValue evalDetail fp nanos toggle user defaultValue) = b
     /\ fst (BoolDetail evalDetail fp nanos toggle user defaultValue)
        = FPDetail.mk b (EvalDetail.RuleIndex detail) (EvalDetail.Version detail)
            (EvalDetail.Reason detail))
  /\ (forall s defaultValue, EvalDetail.Value detail = VStr s ->
        fst (StrValue evalDetail fp nanos toggle user defaultValue) = s
        /\ fst (StrDetail evalDetail fp nanos toggle user defaultValue)
           = FPDetail.mk s (EvalDetail.RuleIndex detail) (EvalDetail.Version detail)
               (EvalDetail.Reason detail))
  /\ (forall f defaultValue, EvalDetail.Value detail = VFloat f ->
        fst (NumberValue evalDetail fp nanos toggle user defaultValue) = f
        /\ fst (NumberDetail evalDetail fp nanos toggle user defaultValue)
           = FPDetail.mk f (EvalDetail.RuleIndex detail) (EvalDetail.Version detail)
               (EvalDetail.Reason detail)).
Proof.
  intros Hres.
  unfold BoolValue, StrValue, NumberValue, BoolDetail, StrDetail, NumberDetail.
  repeat split; rewrite genericDetail_resolved, Hres; cbn; rewrite H; reflexivity.
Qed.

(** X19: when the evaluation of a toggle that is found fails, every
    accessor returns the default value of the caller, and every detail
    carries the rule index, the version and the reason of the failed
    evaluation: the reason is never replaced by "Value type mismatch". *)
Theorem evaluation_error_gives_default (fp : FeatureProbe.t) (nanos : Z) (toggle : string)
    (user : FPUser.t) (detail : EvalDetail.t) (err : string)
    (b : bool) (s : string) (f : float64) (j : value) :
  resolved evalDetail fp toggle user = Some (detail, Some err) ->
  let meta {A} (v : A) :=
    FPDetail.mk v (EvalDetail.RuleIndex detail) (EvalDetail.Version detail)
      (EvalDetail.Reason detail) in
  fst (BoolValue evalDetail fp nanos toggle user b) = b
  /\ fst (StrValue evalDetail fp nanos toggle user s) = s
  /\ fst (NumberValue evalDetail fp nanos toggle user f) = f
  /\ fst (JsonValue evalDetail fp nanos toggle user j) = j
  /\ fst (BoolDetail evalDetail fp nanos toggle user b) = meta b
  /\ fst (StrDetail evalDetail fp nanos toggle user s) = meta s
  /\ fst (NumberDetail evalDetail fp nanos toggle user f) = meta f
  /\ fst (JsonDetail evalDetail fp nanos toggle user j) = meta j.
Proof.
  intros Hres meta.
  unfold BoolValue, StrValue, NumberValue, JsonValue, BoolDetail, StrDetail,
    NumberDetail, JsonDetail.
  rewrite !genericDetail_resolved, Hres. cbn. repeat split; reflexivity.
Qed.

Lemma clientAfter_frame (call : accessor) (fp : FeatureProbe.t) (nanos : Z)
    (toggle : string) (user : FPUser.t) :
  let fp' := clientAfter evalDetail call fp nanos toggle user in
  FeatureProbe.Config fp' = FeatureProbe.Config fp
  /\ FeatureProbe.Repo fp' = FeatureProbe.Repo fp
  /\ FeatureProbe.Recorder fp'
     = (fun recorder => EventRecorder.with_incomingEvents recorder (pending fp'))
       <$> FeatureProbe.Recorder fp
  /\ match FeatureProbe.Recorder fp with
     | None => fp' = fp
     | Some _ => True
     end.
Proof.
  cbv zeta. rewrite clientAfter_genericDetail, genericDetail_resolved.
  destruct (resolved evalDetail fp toggle user) as [[detail err]|]; cbn.
  - destruct fp as [c r [rec|]]; cbn; repeat split; destruct rec; reflexivity.
  - destruct fp as [c r [rec|]]; cbn; repeat split; destruct rec; reflexivity.
Qed.

(** X20: what a call of an accessor leaves alone.  Every accessor leaves
    the configuration and the repository of the client as they are, and
    of the recorder it changes the queue of events only; a client without
    a recorder comes back unchanged. *)
Theorem accessors_only_touch_the_queue (call : accessor) (fp : FeatureProbe.t) (nanos : Z)
    (toggle : string) (user : FPUser.t) :
  let fp' := clientAfter evalDetail call fp nanos toggle user in
  FeatureProbe.Config fp' = FeatureProbe.Config fp
  /\ FeatureProbe.Repo fp' = FeatureProbe.Repo fp
  /\ FeatureProbe.Recorder fp'
     = (fun recorder => EventRecorder.with_incomingEvents recorder (pending fp'))
       <$> FeatureProbe.Recorder fp
  /\ match FeatureProbe.Recorder fp with
     | None => fp' = fp
     | Some _ => True
     end.
Proof. apply clientAfter_frame. Qed.

Lemma resolved_clientAfter (call : accessor) (fp : FeatureProbe.t) (nanos : Z)
    (toggle : string) (user : FPUser.t) (toggle' : string) (user' : FPUser.t) :
  resolved evalDetail (clientAfter evalDetail call fp nanos toggle user) toggle' user'
  = resolved evalDetail fp toggle' user'.
Proof.
  unfold resolved.
  destruct (clientAfter_frame call fp nanos toggle user) as (_ & -> & _). reflexivity.
Qed.

Lemma pending_clientAfter (call : accessor) (fp : FeatureProbe.t) (nanos : Z)
    (toggle : string) (user : FPUser.t) (recorder : EventRecorder.t) :
  FeatureProbe.Recorder fp = Some recorder ->
  pending (clientAfter evalDetail call fp nanos toggle user)
  = pending fp ++ eventsOf evalDetail fp (Invocation call nanos toggle user).
Proof.
  intros Hr. rewrite clientAfter_genericDetail, genericDetail_resolved. unfold eventsOf. cbn.
  destruct (resolved evalDetail fp toggle user) as [[detail err]|]; cbn.
  - unfold pending. rewrite Hr. reflexivity.
  - rewrite app_nil_r. reflexivity.
Qed.

(** X21: calls one after the other on a client with a recorder queue
    their events in the order of the calls: one event for every call
    whose toggle the repository holds, none for the others, after the
    events that were pending; the repository is the same after the calls. *)
Theorem calls_queue_their_events_in_order (fp : FeatureProbe.t) (calls : list invocation)
    (recorder : EventRecorder.t) :
  FeatureProbe.Recorder fp = Some recorder ->
  pending (runCalls evalDetail fp calls) = pending fp ++ flat_map (eventsOf evalDetail fp) calls
  /\ FeatureProbe.Repo (runCalls evalDetail fp calls) = FeatureProbe.Repo fp.
Proof.
  revert fp recorder. induction calls as [|i calls IH]; intros fp recorder Hr; cbn.
  - rewrite app_nil_r. auto.
  - set (fp1 := clientAfter evalDetail (inv_call i) fp (inv_nanos i) (inv_toggle i) (inv_user i)).
    destruct (clientAfter_frame (inv_call i) fp (inv_nanos i) (inv_toggle i) (inv_user i))
      as (_ & Hrepo & Hrec & _). fold fp1 in Hrepo, Hrec.
    rewrite Hr in Hrec. cbn in Hrec.
    destruct (IH fp1 _ Hrec) as [Hp Hrp]. fold (runCalls evalDetail fp1 calls).
    rewrite Hp, Hrp, Hrepo. split; [|reflexivity].
    unfold fp1 at 1.
    rewrite (pending_clientAfter (inv_call i) fp (inv_nanos i) (inv_toggle i)
               (inv_user i) recorder Hr).
    rewrite <- app_assoc. destruct i; cbn. f_equal. f_equal.
    apply flat_map_ext. intros i'. unfold eventsOf, fp1.
    rewrite resolved_clientAfter. reflexivity.
Qed.

(** X22: the client of NewFeatureProbeForTest holds, under every key of
    the given map and under no other, the toggle of newToggleForTest: an
    enabled toggle of version 0 without rules that serves the index 0
    of its one variation, the given value.  It has no recorder, so its
    accessors leave it unchanged. *)
Theorem test_client_holds_the_given_toggles (toggles : gmap string value) (key : string)
    (user : FPUser.t) (call : accessor) (nanos : Z) :
  let fp := NewFeatureProbeForTest toggles in
  resolved evalDetail fp key user
  = (fun v =>
       evalDetail (Toggle.mk key true (Serve.mk (Some 0) None) (Serve.mk (Some 0) None) 0
                     false [v] []) user ∅)
    <$> toggles !! key
  /\ clientAfter evalDetail call fp nanos key user = fp.
Proof.
  cbv zeta. split.
  - unfold resolved, NewFeatureProbeForTest. cbn. rewrite map_lookup_imap.
    destruct (toggles !! key); reflexivity.
  - pose proof (clientAfter_frame call (NewFeatureProbeForTest toggles) nanos key user)
      as (_ & _ & _ & H).
    exact H.
Qed.

End MoreFacade.

(** TestEval: the number toggle through the number accessors. *)
Lemma typed_accessors_return_the_evaluated_value_witness :
  fst (NumberValue evalFixed numberClient 0 "number_toggle" plainUser (float64_of_int 1))
  = float64_of_int 2
  /\ fst (NumberDetail evalFixed numberClient 0 "number_toggle" plainUser (float64_of_int 1))
     = FPDetail.mk (float64_of_int 2) None (Some (Ptr 3%positive 0)) "default rule".
Proof.
  destruct (typed_accessors_return_the_evaluated_value evalFixed numberClient 0
              "number_toggle" plainUser
              (EvalDetail.mk (VFloat (float64_of_int 2)) (Some (Ptr 1%positive 0)) None
                 (Some (Ptr 3%positive 0)) "default rule") eq_refl) as (_ & _ & H).
  exact (H (float64_of_int 2) (float64_of_int 1) eq_refl).
Defined.

(** TestOutOfIndexToggle: the serve selects the index 2 of two variations. *)
Lemma evaluation_error_gives_default_witness :
  fst (BoolValue evalFixed overflowClient 0 "overflow_bool_toggle" plainUser false) = false
  /\ fst (StrValue evalFixed overflowClient 0 "overflow_bool_toggle" plainUser "1") = "1"
  /\ fst (NumberValue evalFixed overflowClient 0 "overflow_bool_toggle" plainUser
            (float64_of_int 1)) = float64_of_int 1
  /\ fst (JsonValue evalFixed overflowClient 0 "overflow_bool_toggle" plainUser VNil) = VNil
  /\ fst (BoolDetail evalFixed overflowClient 0 "overflow_bool_toggle" plainUser false)
     = FPDetail.mk false None (Some (Ptr 3%positive 1)) "variation index overflow"
  /\ fst (StrDetail evalFixed overflowClient 0 "overflow_bool_toggle" plainUser "1")
     = FPDetail.mk "1" None (Some (Ptr 3%positive 1)) "variation index overflow"
  /\ fst (NumberDetail evalFixed overflowClient 0 "overflow_bool_toggle" plainUser
            (float64_of_int 1))
     = FPDetail.mk (float64_of_int 1) None (Some (Ptr 3%positive 1)) "variation index overflow"
  /\ fst (JsonDetail evalFixed overflowClient 0 "overflow_bool_toggle" plainUser VNil)
     = FPDetail.mk VNil None (Some (Ptr 3%positive 1)) "variation index overflow".
Proof.
  exact (evaluation_error_gives_default evalFixed overflowClient 0 "overflow_bool_toggle"
           plainUser
           (EvalDetail.mk VNil None None (Some (Ptr 3%positive 1)) "variation index overflow")
           "variation index overflow" false "1" (float64_of_int 1) VNil eq_refl).
Defined.

(** Three calls, the second on a toggle that the repository lacks. *)
Lemma calls_queue_their_events_in_order_witness :
  pending (runCalls evalFixed numberClient
             [Invocation (CallBoolValue true) 1000000 "number_toggle" plainUser;
              Invocation (CallStrValue "1") 2000000 "not_exist_toggle" plainUser;
              Invocation (CallJsonDetail VNil) 3000000 "number_toggle" plainUser])
  = [AccessEvent.mk 1 "number_toggle" (VFloat (float64_of_int 2)) (Some (Ptr 1%positive 0))
       (Some (Ptr 3%positive 0)) "default rule";
     AccessEvent.mk 3 "number_toggle" (VFloat (float64_of_int 2)) (Some (Ptr 1%positive 0))
       (Some (Ptr 3%positive 0)) "default rule"]
  /\ FeatureProbe.Repo
       (runCalls evalFixed numberClient
          [Invocation (CallBoolValue true) 1000000 "number_toggle" plainUser;
           Invocation (CallStrValue "1") 2000000 "not_exist_toggle" plainUser;
           Invocation (CallJsonDetail VNil) 3000000 "number_toggle" plainUser])
     = FeatureProbe.Repo numberClient.
Proof.
  exact (calls_queue_their_events_in_order evalFixed numberClient
           [Invocation (CallBoolValue true) 1000000 "number_toggle" plainUser;
            Invocation (CallStrValue "1") 2000000 "not_exist_toggle" plainUser;
            Invocation (CallJsonDetail VNil) 3000000 "number_toggle" plainUser]
           (NewEventRecorder "http://collector/api/events" 2000 "key") eq_refl).
Defined.

(** X23: the client of the tests.  Whatever repository setRepoForTest puts
    into a client that NewTestClient returned, the accessors resolve a
    toggle in that repository, with its segments, and the first call
    leaves in the recorder of the client, which was empty, exactly the
    event of that call; the configuration is the one NewTestClient made. *)
Theorem test_client_resolves_in_the_given_repository (evalDetail : evaluator)
    (opts : list Option) (fp : FeatureProbe.t) (repo : Repository.t) (call : accessor)
    (nanos : Z) (toggle : string) (user : FPUser.t) :
  NewTestClient opts = Some fp ->
  let fp1 := setRepoForTest fp repo in
  resolved evalDetail fp1 toggle user
  = (fun t => evalDetail t user (Repository.Segments repo)) <$> Repository.Toggles repo !! toggle
  /\ pending (clientAfter evalDetail call fp1 nanos toggle user)
     = eventsOf evalDetail fp1 (Invocation call nanos toggle user)
  /\ FeatureProbe.Config (clientAfter evalDetail call fp1 nanos toggle user)
     = configure "" "" opts.
Proof.
  intros Hnew fp1. unfold NewTestClient, NewFeatureProbe in Hnew.
  destruct (Start _) as [[recorder launched]|] eqn:Hstart; [|discriminate].
  injection Hnew as <-.
  assert (Hq : EventRecorder.incomingEvents recorder = []).
  { unfold Start in Hstart. cbn in Hstart.
    destruct (_ <=? 0); [discriminate|]. injection Hstart as <- _. reflexivity. }
  split; [|split].
  - unfold resolved, fp1, setRepoForTest. cbn.
    destruct (Repository.Toggles repo !! toggle); reflexivity.
  - rewrite (pending_clientAfter evalDetail call fp1 nanos toggle user recorder eq_refl).
    unfold pending, fp1. cbn. rewrite Hq. reflexivity.
  - destruct (clientAfter_frame evalDetail call fp1 nanos toggle user) as (-> & _). reflexivity.
Qed.

(** TestEvalTypeMismatch: the client of setupFeatureProbe with a
    repository that holds the number toggle. *)
Lemma test_client_resolves_in_the_given_repository_witness :
  match NewTestClient [WithRefreshInterval 100] with
  | Some fp =>
      let fp1 :=
        setRepoForTest fp
          (Repository.mk {[ "number_toggle" := newToggleForTest "number_toggle"
                                                 (VFloat (float64_of_int 2)) ]} ∅) in
      resolved evalFixed fp1 "number_toggle" plainUser
      = Some (evalFixed (newToggleForTest "number_toggle" (VFloat (float64_of_int 2)))
                plainUser ∅)
      /\ pending (clientAfter evalFixed (CallBoolValue true) fp1 0 "number_toggle" plainUser)
         = eventsOf evalFixed fp1 (Invocation (CallBoolValue true) 0 "number_toggle" plainUser)
      /\ FeatureProbe.Config
           (clientAfter evalFixed (CallBoolValue true) fp1 0 "number_toggle" plainUser)
         = configure "" "" [WithRefreshInterval 100]
  | None => False
  end.
Proof.
  destruct (NewTestClient [WithRefreshInterval 100]) as [fp|] eqn:Hnew.
  - exact (test_client_resolves_in_the_given_repository evalFixed [WithRefreshInterval 100] fp
             (Repository.mk {[ "number_toggle" := newToggleForTest "number_toggle"
                                                    (VFloat (float64_of_int 2)) ]} ∅)
             (CallBoolValue true) 0 "number_toggle" plainUser Hnew).
  - vm_compute in Hnew. discriminate Hnew.
Defined.
